(** * agoric_restarter.py: restart timing of the ag-chain-cosmos service

    A shallow embedding of [agoric_restarter.py] and the properties of its
    log matcher, restart loop and summary statistics.

    Layout: Python values and exceptions; the regular expressions of the
    two markers; the host runtime (library calls whose result depends on
    the interpreter build or on the machine); the program itself,
    function by function; then the lemmas and theorems, and their
    instances on sample logs.  The further properties cover the two
    patterns, the log as a sequence of markers, the runs of [main] and
    the spinner. *)

From Stdlib Require Import ZArith List String Ascii Bool Lia Arith.
From Stdlib Require Import Permutation.
Import ListNotations.
Open Scope Z_scope.

(** ** Python values *)

(** A Python [str]: a sequence of Unicode code points. *)
Definition str := list N.

(** The [str] written by an ASCII literal of the source. *)
Definition lit (s : string) : str := map N_of_ascii (list_ascii_of_string s).

Fixpoint str_eqb (a b : str) : bool :=
  match a, b with
  | [], [] => true
  | x :: a', y :: b' => N.eqb x y && str_eqb a' b'
  | _, _ => false
  end.

(** The exceptions the program can meet.  None is ever caught: the
    source has no [try]. *)
Inductive exception :=
| JSONDecodeError
| KeyError (key : string)
| TypeError
| ValueError
| OverflowError
| OSError
| ZeroDivisionError
| SystemExit (code : Z).

(** A call that returns or raises. *)
Inductive result (A : Type) :=
| Ok (a : A)
| Raise (e : exception).
Arguments Ok {A} a.
Arguments Raise {A} e.

Definition rbind {A B} (r : result A) (k : A -> result B) : result B :=
  match r with
  | Ok a => k a
  | Raise e => Raise e
  end.

Declare Scope result_scope.
Delimit Scope result_scope with result.
Notation "x <- r ;; k" := (rbind r (fun x => k))
  (at level 61, r at next level, right associativity) : result_scope.

(** A Python [float] as [json.loads] can produce one: a finite binary
    value [m * 2^e], an infinity or a NaN. *)
Inductive float :=
| Finite (m e : Z)
| Infinity (negative : bool)
| NaN.

#[local] Set Warnings "-register-all".

(** What [json.loads] returns.  A [dict] keeps its items in insertion
    order; a key is looked up by equality. *)
Inductive json :=
| JNone
| JBool (b : bool)
| JInt (n : Z)
| JFloat (f : float)
| JStr (s : str)
| JList (l : list json)
| JDict (d : list (str * json)).

Fixpoint dict_get (d : list (str * json)) (key : str) : option json :=
  match d with
  | [] => None
  | (k, v) :: d' => if str_eqb k key then Some v else dict_get d' key
  end.

(** [obj[key]] for a [str] key: only a [dict] can be subscripted by one. *)
Definition getitem (obj : json) (key : string) : result json :=
  match obj with
  | JDict d =>
      match dict_get d (lit key) with
      | Some v => Ok v
      | None => Raise (KeyError key)
      end
  | _ => Raise TypeError
  end.

(** [isinstance(v, str)] *)
Definition isinstance_str (v : json) : bool :=
  match v with
  | JStr _ => true
  | _ => false
  end.

(** [int(f)] on a float: truncation toward zero. *)
Definition int_of_float (f : float) : result Z :=
  match f with
  | Finite m e => Ok (if 0 <=? e then m * 2 ^ e else Z.quot m (2 ^ (- e)))
  | Infinity _ => Raise OverflowError
  | NaN => Raise ValueError
  end.

(** ** datetime and timedelta *)

(** A naive [datetime]: microseconds since 0001-01-01T00:00:00.  Every
    [datetime] object is truthy. *)
Definition datetime := Z.

(** A [timedelta]: a signed number of microseconds.  The constructor
    refuses more than 999999999 days either way. *)
Definition timedelta := Z.

Definition US_PER_DAY : Z := 86400 * 10 ^ 6.
Definition MAX_DELTA_DAYS : Z := 999999999.

Definition timedelta_in_range (us : Z) : bool :=
  (- (MAX_DELTA_DAYS * US_PER_DAY) <=? us) && (us <? (MAX_DELTA_DAYS + 1) * US_PER_DAY).

Definition new_timedelta (us : Z) : result timedelta :=
  if timedelta_in_range us then Ok us else Raise OverflowError.

(** [datetime.__sub__] between two naive datetimes: exact, and always
    within the range of [timedelta]. *)
Definition datetime_sub (a b : datetime) : timedelta := a - b.

(** [timedelta.__add__] *)
Definition timedelta_add (a b : timedelta) : result timedelta :=
  new_timedelta (a + b).

(** [datetime._divide_and_round]: nearest integer to [a / b], ties to even. *)
Definition divide_and_round (a b : Z) : Z :=
  let q := a / b in
  let r := a mod b in
  let r := r * 2 in
  let greater_than_half := if 0 <? b then b <? r else r <? b in
  if greater_than_half || ((r =? b) && (q mod 2 =? 1)) then q + 1 else q.

(** [timedelta.__truediv__] by an [int] *)
Definition timedelta_truediv (t : timedelta) (n : Z) : result timedelta :=
  if n =? 0 then Raise ZeroDivisionError
  else new_timedelta (divide_and_round t n).

(** [min(restarts)] and [max(restarts)]: the first smallest (largest)
    item; [ValueError] on an empty sequence. *)
Definition py_min (l : list timedelta) : result timedelta :=
  match l with
  | [] => Raise ValueError
  | x :: l' => Ok (fold_left (fun m y => if y <? m then y else m) l' x)
  end.

Definition py_max (l : list timedelta) : result timedelta :=
  match l with
  | [] => Raise ValueError
  | x :: l' => Ok (fold_left (fun m y => if m <? y then y else m) l' x)
  end.

(** [sum(l, start)]: left to right, each addition checked. *)
Fixpoint py_sum (l : list timedelta) (start : timedelta) : result timedelta :=
  match l with
  | [] => Ok start
  | x :: l' =>
      match timedelta_add start x with
      | Ok acc => py_sum l' acc
      | Raise e => Raise e
      end
  end.

(** [range(a, b)] *)
Definition range (a b : Z) : list Z :=
  map (fun k => a + Z.of_nat k) (seq 0 (Z.to_nat (b - a))).

(** ** The [re] patterns of the two markers

    The two patterns of the source use literal characters, [.], [\d],
    the postfix [*] and [+], and a final [$].  [re_compile] reads that
    subset; [re_match] decides, as [re.match] does, whether some prefix
    of the string matches (the order in which a backtracking matcher
    tries the alternatives does not change whether one succeeds). *)

Inductive atom :=
| Char (c : N)        (* a literal character *)
| AnyChar             (* [.]: any character but a newline *)
| Decimal.            (* [\d]: any Unicode decimal digit *)

Inductive quantifier :=
| Once
| ZeroOrMore          (* [*] *)
| OneOrMore.          (* [+] *)

Inductive item :=
| Repeat (a : atom) (q : quantifier)
| EndOfString.        (* [$] *)

Definition NEWLINE : N := 10.

(** A run of literal characters as a pattern. *)
Definition literal (w : str) : list item := map (fun c => Repeat (Char c) Once) w.

Definition is_special (c : ascii) : bool :=
  existsb (Ascii.eqb c) (list_ascii_of_string "^()[]{}|?*+\").

Definition quantified (rest : list ascii) : quantifier * list ascii :=
  match rest with
  | "*"%char :: rest' => (ZeroOrMore, rest')
  | "+"%char :: rest' => (OneOrMore, rest')
  | _ => (Once, rest)
  end.

(** The parser runs on the length of the pattern: each item consumes at
    least one character. *)
Fixpoint re_parse (n : nat) (p : list ascii) : option (list item) :=
  match n with
  | O => match p with [] => Some [] | _ => None end
  | S n' =>
      match p with
      | [] => Some []
      | "$"%char :: p' => option_map (cons EndOfString) (re_parse n' p')
      | "\"%char :: "d"%char :: p' =>
          let (q, p'') := quantified p' in
          option_map (cons (Repeat Decimal q)) (re_parse n' p'')
      | "."%char :: p' =>
          let (q, p'') := quantified p' in
          option_map (cons (Repeat AnyChar q)) (re_parse n' p'')
      | c :: p' =>
          if is_special c then None
          else
            let (q, p'') := quantified p' in
            option_map (cons (Repeat (Char (N_of_ascii c)) q)) (re_parse n' p'')
      end
  end.

Definition re_compile (pattern : string) : option (list item) :=
  re_parse (String.length pattern) (list_ascii_of_string pattern).

Section Matching.

(** Membership in Unicode category Nd, as the interpreter's tables have it. *)
Variable isdecimal : N -> bool.

Definition accepts (a : atom) (c : N) : bool :=
  match a with
  | Char c' => N.eqb c c'
  | AnyChar => negb (N.eqb c NEWLINE)
  | Decimal => isdecimal c
  end.

(** [$] holds at the end of the string and just before a final newline. *)
Definition at_end (s : str) : bool :=
  match s with
  | [] => true
  | [c] => N.eqb c NEWLINE
  | _ => false
  end.

(** Zero or more characters accepted by [ok], then the continuation [k]. *)
Fixpoint match_star (ok : N -> bool) (k : str -> bool) (s : str) : bool :=
  k s ||
  match s with
  | c :: s' => ok c && match_star ok k s'
  | [] => false
  end.

Fixpoint match_here (pat : list item) (s : str) {struct pat} : bool :=
  match pat with
  | [] => true
  | EndOfString :: pat' => at_end s && match_here pat' s
  | Repeat a Once :: pat' =>
      match s with
      | c :: s' => accepts a c && match_here pat' s'
      | [] => false
      end
  | Repeat a ZeroOrMore :: pat' => match_star (accepts a) (match_here pat') s
  | Repeat a OneOrMore :: pat' =>
      match s with
      | c :: s' => accepts a c && match_star (accepts a) (match_here pat') s'
      | [] => false
      end
  end.

(** [re.match(pattern, string)] as a truth value. *)
Definition re_match (pattern : string) (s : str) : bool :=
  match re_compile pattern with
  | Some pat => match_here pat s
  | None => false
  end.

End Matching.

(** ** The host runtime

    Library calls whose result depends on the interpreter build (its
    Unicode tables, its limits) or on the machine (its time zone).
    The program is modelled over any of them. *)
Class Runtime := {
  (** [json.loads(line)] *)
  json_loads : str -> result json;
  (** [int(s)] for a [str] *)
  int_of_str : str -> result Z;
  (** [datetime.fromtimestamp(n / 10 ** 6)] for an [int] [n]: a true
      division to a float, then the conversion to local naive time. *)
  fromtimestamp : Z -> result datetime;
  (** Unicode category Nd, for [\d] *)
  isdecimal : N -> bool
}.

(** The surroundings of one run: what the [k]-th call of
    [systemctl restart] returns, and what the [k]-th [journalctl]
    process writes.  [journalctl k i = None]: the process never writes
    an [i]-th line, and [readline] blocks for ever; an empty line is
    what [readline] returns at the end of the file. *)
Record World := {
  systemctl : nat -> Z;
  journalctl : nat -> nat -> option str
}.

(** The description of a progress bar: [f"Restart #{num}:"]. *)
Inductive label :=
| RestartLabel (num : Z).

(** What the program prints, one item per [print] of the main thread,
    with the values the f-strings interpolate.  The frames of the
    spinner are left out: their number depends on the clock. *)
Inductive output :=
| ExitedWithCode (service : string) (return_code : Z)
| Cleared (desc : label)
| Finished (desc : label) (end_ : timedelta)
| Rule (width : nat)
| Totals (r : nat) (total_time : timedelta)
| MinMaxAvg (min_time max_time avg_time : timedelta).

(** The state a run threads: how many times each external command was
    started, and the standard output so far. *)
Record State := {
  restart_calls : nat;
  journal_procs : nat;
  printed : list output
}.

(** What a computation has come to: it returned, it raised, or it is
    still waiting for the log. *)
Inductive outcome (A : Type) :=
| Done (a : A)
| Raised (e : exception)
| Pending.
Arguments Done {A} a.
Arguments Raised {A} e.
Arguments Pending {A}.

Definition M (A : Type) := State -> outcome A * State.

Definition ret {A} (a : A) : M A := fun st => (Done a, st).

Definition bind {A B} (m : M A) (k : A -> M B) : M B := fun st =>
  match m st with
  | (Done a, st') => k a st'
  | (Raised e, st') => (Raised e, st')
  | (Pending, st') => (Pending, st')
  end.

Declare Scope prog_scope.
Delimit Scope prog_scope with prog.
Notation "x <- m ;; k" := (bind m (fun x => k))
  (at level 61, m at next level, right associativity) : prog_scope.
Notation "m ;; k" := (bind m (fun _ => k))
  (at level 61, right associativity) : prog_scope.

Definition lift {A} (r : result A) : M A := fun st =>
  match r with
  | Ok a => (Done a, st)
  | Raise e => (Raised e, st)
  end.

Definition print (o : output) : M unit := fun st =>
  (Done tt, {| restart_calls := restart_calls st;
               journal_procs := journal_procs st;
               printed := printed st ++ [o] |}).

(** [sys.exit(code)] *)
Definition sys_exit {A} (code : Z) : M A := fun st => (Raised (SystemExit code), st).

(** ** The program *)

Definition SERVICE_NAME : string := "ag-chain-cosmos.service".
Definition START_MESSAGE : string := ".*Started Agoric Cosmos daemon.$".
Definition END_MESSAGE : string := ".*block-manager: block \d+ begin$".

(** [class ProgressBar].  The thread, its [steps], its [timeout] and the
    flag [done] that stops it only drive the frames of the spinner. *)
Record ProgressBar := {
  desc : label
}.

Definition ProgressBar_start (pb : ProgressBar) : M ProgressBar := ret pb.

Definition ProgressBar_stop (pb : ProgressBar) (end_ : timedelta) : M unit :=
  (print (Cleared (desc pb)) ;;
   print (Finished (desc pb) end_))%prog.

(** What one pass of the loop of [check_message] decides. *)
Inductive control :=
| Continue (start_timestamp : option datetime)
| Return (restart : timedelta).

Section Program.

Context {rt : Runtime}.
Variable world : World.

(** How many log entries one call of [check_message] is followed for. *)
Variable fuel : nat.

(** [int(v)] *)
Definition py_int (v : json) : result Z :=
  match v with
  | JInt n => Ok n
  | JBool b => Ok (if b then 1 else 0)
  | JFloat f => int_of_float f
  | JStr s => int_of_str s
  | JNone | JList _ | JDict _ => Raise TypeError
  end.

(** [subprocess.call(["systemctl", "restart", SERVICE_NAME])] *)
Definition call_systemctl : M Z := fun st =>
  (Done (systemctl world (restart_calls st)),
   {| restart_calls := S (restart_calls st);
      journal_procs := journal_procs st;
      printed := printed st |}).

Definition restart_service : M unit :=
  (return_code <- call_systemctl ;;
   if negb (return_code =? 0) then
     print (ExitedWithCode SERVICE_NAME return_code) ;;
     sys_exit 1
   else ret tt)%prog.

Definition read_json (line : str) : result json := json_loads line.

(** [subprocess.Popen(cmd.split(), ...)]: the standard output of a new
    [journalctl] process. *)
Definition popen_journalctl : M (nat -> option str) := fun st =>
  (Done (journalctl world (journal_procs st)),
   {| restart_calls := restart_calls st;
      journal_procs := S (journal_procs st);
      printed := printed st |}).

(** The [i]-th value the generator [read_log] yields over a process:
    nothing while [readline] blocks, an exception when [read_json] raises. *)
Definition read_log (process_stdout : nat -> option str) (i : nat) : option (result json) :=
  match process_stdout i with
  | Some output => Some (read_json output)
  | None => None
  end.

(** The body of the [for] loop of [check_message], for one [msg]. *)
Definition check_entry (start_timestamp : option datetime) (msg : json) : result control :=
  (field <- getitem msg "__REALTIME_TIMESTAMP" ;;
   n <- py_int field ;;
   timestamp <- fromtimestamp n ;;
   message <- getitem msg "MESSAGE" ;;
   match message with
   | JStr message =>
       if re_match isdecimal START_MESSAGE message then
         Ok (Continue (Some timestamp))
       else
         match start_timestamp with
         | Some start =>
             if re_match isdecimal END_MESSAGE message then
               Ok (Return (datetime_sub timestamp start))
             else Ok (Continue start_timestamp)
         | None => Ok (Continue start_timestamp)
         end
   | _ => Ok (Continue start_timestamp)
   end)%result.

(** The [for] loop from the [i]-th entry on, followed for [n] entries. *)
Fixpoint check_message_loop (n : nat) (log : nat -> option (result json)) (i : nat)
  (start_timestamp : option datetime) : outcome timedelta :=
  match n with
  | O => Pending
  | S n' =>
      match log i with
      | None => Pending
      | Some (Raise e) => Raised e
      | Some (Ok msg) =>
          match check_entry start_timestamp msg with
          | Raise e => Raised e
          | Ok (Return restart) => Done restart
          | Ok (Continue start_timestamp') =>
              check_message_loop n' log (S i) start_timestamp'
          end
      end
  end.

Definition check_message : M timedelta :=
  (process_stdout <- popen_journalctl ;;
   fun st => (check_message_loop fuel (read_log process_stdout) 0 None, st))%prog.

Definition print_results (restarts : list timedelta) : M unit :=
  (min_time <- lift (py_min restarts) ;;
   max_time <- lift (py_max restarts) ;;
   total_time <- lift (py_sum restarts 0) ;;
   let r := List.length restarts in
   avg_time <- lift (timedelta_truediv total_time (Z.of_nat r)) ;;
   print (Rule 40) ;;
   print (Totals r total_time) ;;
   print (MinMaxAvg min_time max_time avg_time))%prog.

(** The [for num in range(1, count + 1)] loop of [restart_by_count]. *)
Fixpoint restart_each (nums : list Z) (restart_timedelta : list timedelta)
  : M (list timedelta) :=
  match nums with
  | [] => ret restart_timedelta
  | num :: nums' =>
      (let msg := RestartLabel num in
       pb_thread <- ProgressBar_start {| desc := msg |} ;;
       restart_service ;;
       r <- check_message ;;
       let restart_timedelta := restart_timedelta ++ [r] in
       ProgressBar_stop pb_thread r ;;
       restart_each nums' restart_timedelta)%prog
  end.

Definition restart_by_count (count : Z) : M (list timedelta) :=
  restart_each (range 1 (count + 1)) [].

Definition main (count : Z) : M unit :=
  (restarts <- restart_by_count count ;;
   print_results restarts)%prog.

End Program.

(** The state once one more [journalctl] has been started. *)
Definition opened (st : State) : State :=
  {| restart_calls := restart_calls st;
     journal_procs := S (journal_procs st);
     printed := printed st |}.

(** The state after a cycle whose restart succeeded and whose
    measurement was [r]. *)
Definition cycled (st : State) (num : Z) (r : timedelta) : State :=
  {| restart_calls := S (restart_calls st);
     journal_procs := S (journal_procs st);
     printed := (printed st ++ [Cleared (RestartLabel num)])
                ++ [Finished (RestartLabel num) r] |}.

(** The state after a restart that the supervisor refused. *)
Definition refused (st : State) (return_code : Z) : State :=
  {| restart_calls := S (restart_calls st);
     journal_procs := journal_procs st;
     printed := printed st ++ [ExitedWithCode SERVICE_NAME return_code] |}.

(** The lines of the final summary. *)
Definition is_summary (o : output) : bool :=
  match o with
  | Rule _ | Totals _ _ | MinMaxAvg _ _ _ => true
  | _ => false
  end.

(** The exact sum of a list of durations, and its running sums. *)
Definition total (l : list timedelta) : Z := fold_right Z.add 0 l.

Fixpoint partial_sums (l : list timedelta) (start : Z) : list Z :=
  match l with
  | [] => []
  | x :: l' => (start + x) :: partial_sums l' (start + x)
  end.

(** The state of a fresh process. *)
Definition initial : State :=
  {| restart_calls := 0; journal_procs := 0; printed := [] |}.

(** The exit status of the interpreter: 0 when [main] returns, the code
    of a [SystemExit], 1 after the traceback of any other exception. *)
Definition exit_status (o : outcome unit) : option Z :=
  match o with
  | Done _ => Some 0
  | Raised (SystemExit code) => Some code
  | Raised _ => Some 1
  | Pending => None
  end.

(** ** The vocabulary of the properties *)

Section Observations.

Context {rt : Runtime}.

(** What [check_message] reads of one [msg] before it looks at the
    message: its timestamp and its MESSAGE field. *)
Definition read_entry (msg : json) : result (datetime * json) :=
  (field <- getitem msg "__REALTIME_TIMESTAMP" ;;
   n <- py_int field ;;
   timestamp <- fromtimestamp n ;;
   message <- getitem msg "MESSAGE" ;;
   Ok (timestamp, message))%result.

(** The [k]-th entry of a log, when its line arrives, decodes and has
    both fields. *)
Definition entry (process_stdout : nat -> option str) (k : nat) : option (datetime * json) :=
  match read_log process_stdout k with
  | Some (Ok msg) =>
      match read_entry msg with
      | Ok e => Some e
      | Raise _ => None
      end
  | _ => None
  end.

Definition timestamp_at (process_stdout : nat -> option str) (k : nat) : option datetime :=
  option_map fst (entry process_stdout k).


(** The MESSAGE field is a [str] that the pattern matches. *)
Definition matches (pattern : string) (message : json) : bool :=
  match message with
  | JStr s => re_match isdecimal pattern s
  | _ => false
  end.

Definition started_at (process_stdout : nat -> option str) (k : nat) : bool :=
  match entry process_stdout k with
  | Some (_, message) => matches START_MESSAGE message
  | None => false
  end.

Definition ready_at (process_stdout : nat -> option str) (k : nat) : bool :=
  match entry process_stdout k with
  | Some (_, message) => matches END_MESSAGE message
  | None => false
  end.

(** What the loop body decides once both fields are read. *)
Definition decide (start_timestamp : option datetime) (timestamp : datetime) (message : json)
  : control :=
  if matches START_MESSAGE message then Continue (Some timestamp)
  else
    match start_timestamp with
    | Some start =>
        if matches END_MESSAGE message then Return (datetime_sub timestamp start)
        else Continue start_timestamp
    | None => Continue start_timestamp
    end.

(** The timestamp of the last start marker before the [k]-th entry. *)
Fixpoint last_start (process_stdout : nat -> option str) (k : nat) : option datetime :=
  match k with
  | O => None
  | S k' =>
      if started_at process_stdout k' then timestamp_at process_stdout k'
      else last_start process_stdout k'
  end.

(** Every entry before the [n]-th can be read. *)
Definition readable_upto (process_stdout : nat -> option str) (n : nat) : Prop :=
  forall k, (k < n)%nat -> entry process_stdout k <> None.

(** The first [n] entries can be read, and none of them is a ready
    marker that follows a start marker. *)
Definition waiting_until (process_stdout : nat -> option str) (n : nat) : Prop :=
  readable_upto process_stdout n /\
  forall k, (k < n)%nat -> ready_at process_stdout k = true ->
            last_start process_stdout k = None.

(** An entry [check_message] cannot read, and the exception it meets:
    a field is missing, or the timestamp does not convert.  Nothing is
    asked of the MESSAGE field in the first two cases. *)
Inductive malformed : json -> exception -> Prop :=
| no_timestamp (d : list (str * json)) :
    dict_get d (lit "__REALTIME_TIMESTAMP") = None ->
    malformed (JDict d) (KeyError "__REALTIME_TIMESTAMP")
| bad_timestamp (d : list (str * json)) (field : json) (e : exception) :
    dict_get d (lit "__REALTIME_TIMESTAMP") = Some field ->
    py_int field = Raise e ->
    malformed (JDict d) e
| no_message (d : list (str * json)) (field : json) (n : Z) (timestamp : datetime) :
    dict_get d (lit "__REALTIME_TIMESTAMP") = Some field ->
    py_int field = Ok n ->
    fromtimestamp n = Ok timestamp ->
    dict_get d (lit "MESSAGE") = None ->
    malformed (JDict d) (KeyError "MESSAGE").

(** [check_message], started on this log, returns [restart] once it has
    read the [j]-th entry, and not before. *)
Definition returns_at (process_stdout : nat -> option str) (j : nat) (restart : timedelta) : Prop :=
  check_message_loop j (read_log process_stdout) 0 None = Pending /\
  check_message_loop (S j) (read_log process_stdout) 0 None = Done restart.

End Observations.

(** The [k]-th cycle after the state [st]: the supervisor restarts the
    service, and [check_message] measures [d] on the journal of that cycle. *)
Definition measured {rt : Runtime} (world : World) (fuel : nat) (st : State) (k : nat)
  (d : timedelta) : Prop :=
  systemctl world (restart_calls st + k) = 0 /\
  check_message_loop fuel (read_log (journalctl world (journal_procs st + k))) 0 None = Done d.

(** ** A reference runtime

    A machine on UTC whose interpreter knows the ASCII digits only, and
    a decoder for the flat objects [journalctl -o json] writes: string
    keys; string, integer, [null], [true] and [false] values; strings
    without escapes.  It serves the examples. *)
Module Reference.

Definition QUOTE : N := 34.
Definition BACKSLASH : N := 92.

Definition is_ascii_digit (c : N) : bool := ((48 <=? c) && (c <=? 57))%N.

Definition is_space (c : N) : bool :=
  (N.eqb c 32 || N.eqb c 9 || N.eqb c 10 || N.eqb c 13)%N.

Fixpoint skip_space (s : str) : str :=
  match s with
  | c :: s' => if is_space c then skip_space s' else s
  | [] => []
  end.

(** The digits at the head of [s], read in base ten onto [acc]. *)
Fixpoint digits (s : str) (acc : Z) : Z * str :=
  match s with
  | c :: s' =>
      if is_ascii_digit c then digits s' (10 * acc + (Z.of_N c - 48)) else (acc, s)
  | [] => (acc, [])
  end.

Definition starts_with_digit (s : str) : bool :=
  match s with
  | c :: _ => is_ascii_digit c
  | [] => false
  end.

(** An optional sign and ASCII digits, nothing else. *)
Definition parse_int (s : str) : result Z :=
  let (negative, body) :=
    match s with
    | 45%N :: s' => (true, s')
    | 43%N :: s' => (false, s')
    | _ => (false, s)
    end in
  if starts_with_digit body then
    match digits body 0 with
    | (n, []) => Ok (if negative then - n else n)
    | _ => Raise ValueError
    end
  else Raise ValueError.

(** The characters up to the closing quote. *)
Fixpoint string_body (s : str) (acc : str) : option (str * str) :=
  match s with
  | [] => None
  | c :: s' =>
      if N.eqb c QUOTE then Some (rev acc, s')
      else if (N.eqb c BACKSLASH || (c <? 32)%N) then None
      else string_body s' (c :: acc)
  end.

Fixpoint strip_prefix (p s : str) : option str :=
  match p, s with
  | [], _ => Some s
  | x :: p', y :: s' => if N.eqb x y then strip_prefix p' s' else None
  | _ :: _, [] => None
  end.

Definition value (s : str) : option (json * str) :=
  match s with
  | [] => None
  | c :: s' =>
      if N.eqb c QUOTE then
        match string_body s' [] with
        | Some (v, rest) => Some (JStr v, rest)
        | None => None
        end
      else if is_ascii_digit c then
        let (n, rest) := digits s 0 in Some (JInt n, rest)
      else
        match strip_prefix (lit "null") s, strip_prefix (lit "true") s,
              strip_prefix (lit "false") s with
        | Some rest, _, _ => Some (JNone, rest)
        | _, Some rest, _ => Some (JBool true, rest)
        | _, _, Some rest => Some (JBool false, rest)
        | _, _, _ => None
        end
  end.

(** [d[k] = v]: a repeated key keeps its place and takes the last value. *)
Fixpoint dict_set (d : list (str * json)) (k : str) (v : json) : list (str * json) :=
  match d with
  | [] => [(k, v)]
  | (k', v') :: d' => if str_eqb k' k then (k', v) :: d' else (k', v') :: dict_set d' k v
  end.

(** The members of an object after its first, up to the closing brace. *)
Fixpoint members (n : nat) (s : str) (d : list (str * json)) : option (list (str * json) * str) :=
  match n with
  | O => None
  | S n' =>
      match skip_space s with
      | c :: s1 =>
          if N.eqb c QUOTE then
            match string_body s1 [] with
            | Some (k, s2) =>
                match skip_space s2 with
                | 58%N :: s3 =>
                    match value (skip_space s3) with
                    | Some (v, s4) =>
                        match skip_space s4 with
                        | 44%N :: s5 => members n' s5 (dict_set d k v)
                        | 125%N :: s5 => Some (dict_set d k v, s5)
                        | _ => None
                        end
                    | None => None
                    end
                | _ => None
                end
            | None => None
            end
          else None
      | [] => None
      end
  end.

Definition loads (line : str) : result json :=
  match skip_space line with
  | 123%N :: s1 =>
      match skip_space s1 with
      | 125%N :: s2 =>
          match skip_space s2 with
          | [] => Ok (JDict [])
          | _ => Raise JSONDecodeError
          end
      | _ =>
          match members (List.length s1) s1 [] with
          | Some (d, s2) =>
              match skip_space s2 with
              | [] => Ok (JDict d)
              | _ => Raise JSONDecodeError
              end
          | None => Raise JSONDecodeError
          end
      end
  | _ => Raise JSONDecodeError
  end.

(** Microseconds from 0001-01-01 to 1970-01-01. *)
Definition EPOCH : Z := 62135596800 * 10 ^ 6.

(** Below 4e15 microseconds the division by [10 ** 6] and the rounding
    of [fromtimestamp] give the microsecond back exactly. *)
Definition utc_fromtimestamp (n : Z) : result datetime :=
  if (0 <=? n) && (n <? 4 * 10 ^ 15) then Ok (EPOCH + n) else Raise OverflowError.

#[export] Instance runtime : Runtime := {|
  json_loads := loads;
  int_of_str := parse_int;
  fromtimestamp := utc_fromtimestamp;
  isdecimal := is_ascii_digit
|}.

Definition quoted (s : string) : str := QUOTE :: lit s ++ [QUOTE].

(** A line of [journalctl -o json --output-fields=MESSAGE]. *)
Definition journal_line (realtime message : string) : str :=
  lit "{" ++ quoted "__REALTIME_TIMESTAMP" ++ lit ":" ++ quoted realtime ++ lit "," ++
  quoted "MESSAGE" ++ lit ":" ++ quoted message ++ lit "}" ++ [NEWLINE].

(** A process that writes the lines of [l] and then stays silent. *)
Definition writes (l : list str) : nat -> option str := fun i => nth_error l i.

(** A world where every restart succeeds and every [journalctl] writes
    the same lines. *)
Definition steady (l : list str) : World :=
  {| systemctl := fun _ => 0; journalctl := fun _ => writes l |}.

(** Sample lines. *)
Definition started : str :=
  journal_line "1600000000000000" "systemd[1]: Started Agoric Cosmos daemon.".
Definition chatter : str :=
  journal_line "1600000009000000" "ag-chain-cosmos[42]: loading state".
Definition ready : str :=
  journal_line "1600000018444228" "ag-chain-cosmos[42]: block-manager: block 12 begin".
Definition ready_later : str :=
  journal_line "1600000025000000" "ag-chain-cosmos[42]: block-manager: block 13 begin".

(** A line whose MESSAGE is [null], as [journalctl] writes for a
    message too large to print. *)
Definition null_message : str :=
  lit "{" ++ quoted "__REALTIME_TIMESTAMP" ++ lit ":" ++ quoted "1600000003000000" ++
  lit "," ++ quoted "MESSAGE" ++ lit ":null}" ++ [NEWLINE].

(** An entry without MESSAGE, an entry without timestamp, and a line
    that is no JSON at all. *)
Definition without_message : str :=
  lit "{" ++ quoted "__REALTIME_TIMESTAMP" ++ lit ":" ++ quoted "1600000003000000" ++
  lit "}" ++ [NEWLINE].
Definition without_timestamp : str :=
  lit "{" ++ quoted "MESSAGE" ++ lit ":null}" ++ [NEWLINE].
Definition not_json : str := lit "-- Journal begins --" ++ [NEWLINE].


(** The durations of the docstring of the source. *)
Definition docstring_restarts : list timedelta := [18444228; 17258119; 16693717].

(** A world whose second restart the supervisor refuses with status 3. *)
Definition second_refused : World :=
  {| systemctl := fun k => if Nat.eqb k 1 then 3 else 0;
     journalctl := fun _ => writes [started; ready] |}.

(** The three restarts of the docstring of the source. *)
Definition docstring_world : World :=
  {| systemctl := fun _ => 0;
     journalctl := fun k =>
       writes [started;
               journal_line
                 (match k with
                  | O => "1600000018444228"
                  | S O => "1600000017258119"
                  | _ => "1600000016693717"
                  end)
                 "ag-chain-cosmos[42]: block-manager: block 1 begin"] |}.

End Reference.

(** ** A machine on local time

    [datetime.fromtimestamp] gives the local time of the machine, as a
    [datetime] without zone.  On a machine on Europe/Berlin time the
    clocks are one hour ahead of UTC in winter and two in summer; in
    2021 they went from 02:00 to 03:00 on 28 March, at 01:00:00 UTC.
    The twelve months from 2020-10-25 to 2021-10-31 are modelled, the
    conversion is left out elsewhere. *)
Module Berlin.

Import Reference.






End Berlin.

(** ** Further vocabulary *)

(** A string without a newline: what [.*] can run over. *)
Definition no_newline (s : str) : bool :=
  forallb (fun c => negb (N.eqb c NEWLINE)) s.

(** At most a final newline: where [$] holds. *)
Definition line_end (tail : str) : Prop := tail = [] \/ tail = [NEWLINE].


Section Markers_of_a_log.

Context {rt : Runtime}.



End Markers_of_a_log.



(** What the cycles numbered [nums] print when they measure [ds]. *)
Fixpoint progress (nums : list Z) (ds : list timedelta) : list output :=
  match nums, ds with
  | num :: nums', d :: ds' =>
      Cleared (RestartLabel num) :: Finished (RestartLabel num) d :: progress nums' ds'
  | _, _ => []
  end.

(** The state after the cycles numbered from 1 have measured [ds]. *)
Definition completed (st : State) (ds : list timedelta) : State :=
  {| restart_calls := restart_calls st + List.length ds;
     journal_procs := journal_procs st + List.length ds;
     printed := printed st ++ progress (range 1 (Z.of_nat (List.length ds) + 1)) ds |}.

(** The state in which the cycle after those has restarted the service
    and opened its journal, and [check_message] has not returned. *)
Definition stalled (st : State) (ds : list timedelta) : State :=
  {| restart_calls := S (restart_calls st + List.length ds);
     journal_procs := S (journal_procs st + List.length ds);
     printed := printed st ++ progress (range 1 (Z.of_nat (List.length ds) + 1)) ds |}.

(** ** The spinner thread *)

(** [self.steps]: the eight glyphs, by code point. *)
Definition steps : list N :=
  [10431; 10491; 10493; 10494; 10487; 10479; 10463; 10367]%N.

(** A frame [f"\r{self.desc} {c}"] of the spinner. *)
Inductive frame :=
| Frame (desc : label) (c : N).

(** [next] on [itertools.cycle(saved)] whose current pass has [rest]
    left: the next item and what is left, or nothing when [saved] is
    empty. *)
Definition cycle_next (saved rest : list N) : option (N * list N) :=
  match rest with
  | c :: rest' => Some (c, rest')
  | [] =>
      match saved with
      | c :: rest' => Some (c, rest')
      | [] => None
      end
  end.

(** [ProgressBar._animate], followed for [n] passes of its loop.
    [done_at k] is what the [k]-th test of [self.done] reads.  The
    result is the frames printed, and whether the thread has ended. *)
Fixpoint animate (n : nat) (desc : label) (saved rest : list N)
  (done_at : nat -> bool) (k : nat) : list frame * bool :=
  match n with
  | O => ([], false)
  | S n' =>
      match cycle_next saved rest with
      | None => ([], true)
      | Some (c, rest') =>
          if done_at k then ([], true)
          else
            let (frames, ended) := animate n' desc saved rest' done_at (S k) in
            (Frame desc c :: frames, ended)
      end
  end.

Definition _animate (n : nat) (self : ProgressBar) (done_at : nat -> bool)
  : list frame * bool :=
  animate n (desc self) steps steps done_at 0.

(** ** Further sample runs *)
Module Scenarios.

Import Reference.

(** The second journal holds a line that is no JSON after the start
    marker. *)
Definition second_journal_broken : World :=
  {| systemctl := fun _ => 0;
     journalctl := fun k =>
       if Nat.eqb k 1 then writes [started; not_json; ready]
       else writes [started; ready] |}.

(** The second journal falls silent after the start marker. *)
Definition second_journal_silent : World :=
  {| systemctl := fun _ => 0;
     journalctl := fun k =>
       if Nat.eqb k 1 then writes [started; chatter]
       else writes [started; ready] |}.

(** A [journalctl] that exits after the start marker: [readline] then
    returns the empty string. *)
Definition journal_ended : list str := [started; []].

(** [self.done] is set between the [n]-th and the next test. *)
Definition set_before (n : nat) : nat -> bool := fun m => Nat.leb n m.

End Scenarios.

(** Case analysis on an index below a small bound; computation is only
    asked of closed goals. *)
Ltac by_cases_below k :=
  do 5 (try (destruct k as [|k]; [try lia; try (vm_compute; congruence)|]));
  lia.

(** * Properties *)

(** ** The two markers never match the same message *)

Section Markers.

Variable isdecimal : N -> bool.

Lemma match_star_split (ok : N -> bool) (k : str -> bool) (s : str) :
  match_star ok k s = true ->
  exists taken rest, s = taken ++ rest /\ forallb ok taken = true /\ k rest = true.
Proof.
  induction s as [|c s IH]; simpl; intros H.
  - rewrite orb_false_r in H. now exists [], [].
  - apply orb_true_iff in H as [H|H].
    + now exists [], (c :: s).
    + apply andb_true_iff in H as [Hc H].
      destruct (IH H) as (taken & rest & -> & Hall & Hk).
      exists (c :: taken), rest. simpl. now rewrite Hc, Hall.
Qed.

Lemma match_literal (w : str) (pat : list item) (s : str) :
  match_here isdecimal (literal w ++ pat) s = true ->
  exists rest, s = w ++ rest /\ match_here isdecimal pat rest = true.
Proof.
  revert s. induction w as [|c w IH]; simpl; intros s H.
  - now exists s.
  - destruct s as [|x s]; [discriminate|].
    apply andb_true_iff in H as [Hx H].
    apply N.eqb_eq in Hx. subst x.
    destruct (IH _ H) as (rest & -> & Hrest).
    now exists rest.
Qed.

Lemma at_end_cases (s : str) : at_end s = true -> s = [] \/ s = [NEWLINE].
Proof.
  destruct s as [|c [|d s]]; simpl; intros H; try discriminate; auto.
  apply N.eqb_eq in H. subst. now right.
Qed.

Lemma START_MESSAGE_compiled :
  re_compile START_MESSAGE =
  Some (Repeat AnyChar ZeroOrMore
          :: literal (lit "Started Agoric Cosmos daemon")
          ++ [Repeat AnyChar Once; EndOfString]).
Proof. reflexivity. Qed.

Lemma END_MESSAGE_compiled :
  re_compile END_MESSAGE =
  Some (Repeat AnyChar ZeroOrMore
          :: literal (lit "block-manager: block ")
          ++ Repeat Decimal OneOrMore
          :: literal (lit " begin") ++ [EndOfString]).
Proof. reflexivity. Qed.

(** A message the start pattern matches ends in [n], one more character
    that is no newline, and at most a final newline. *)
Lemma START_MESSAGE_shape (s : str) :
  re_match isdecimal START_MESSAGE s = true ->
  exists before c tail,
    s = before ++ 110%N :: c :: tail /\ c <> NEWLINE /\ (tail = [] \/ tail = [NEWLINE]).
Proof.
  unfold re_match. rewrite START_MESSAGE_compiled.
  cbn [match_here]. intros H.
  apply match_star_split in H as (taken & rest & -> & _ & H).
  apply match_literal in H as (rest' & -> & H).
  cbn [match_here] in H.
  destruct rest' as [|c tail]; [discriminate|].
  apply andb_true_iff in H as [Hc H].
  rewrite andb_true_r in H. apply at_end_cases in H.
  exists (taken ++ lit "Started Agoric Cosmos daemo"), c, tail.
  split; [|split; [|exact H]].
  - rewrite <- app_assoc. reflexivity.
  - simpl in Hc. intros ->. discriminate.
Qed.

(** A message the ready pattern matches ends in [in] and at most a
    final newline. *)
Lemma END_MESSAGE_shape (s : str) :
  re_match isdecimal END_MESSAGE s = true ->
  exists before tail,
    s = before ++ 105%N :: 110%N :: tail /\ (tail = [] \/ tail = [NEWLINE]).
Proof.
  unfold re_match. rewrite END_MESSAGE_compiled.
  cbn [match_here]. intros H.
  apply match_star_split in H as (taken & rest & -> & _ & H).
  apply match_literal in H as (rest' & -> & H).
  cbn [match_here] in H.
  destruct rest' as [|d rest']; [discriminate|].
  apply andb_true_iff in H as [_ H].
  apply match_star_split in H as (ds & rest'' & -> & _ & H).
  apply match_literal in H as (tail & -> & H).
  cbn [match_here] in H. rewrite andb_true_r in H. apply at_end_cases in H.
  exists (taken ++ lit "block-manager: block " ++ d :: ds ++ lit " beg"), tail.
  split; [|exact H].
  change (lit " begin") with (lit " beg" ++ [105%N; 110%N]).
  repeat (rewrite <- app_assoc || rewrite <- app_comm_cons). reflexivity.
Qed.

Lemma markers_disjoint (s : str) :
  re_match isdecimal START_MESSAGE s = true ->
  re_match isdecimal END_MESSAGE s = false.
Proof.
  intros Hs. destruct (re_match isdecimal END_MESSAGE s) eqn:He; [|reflexivity].
  exfalso.
  apply START_MESSAGE_shape in Hs as (a & c & t & Ha & Hc & Ht).
  apply END_MESSAGE_shape in He as (b & t' & Hb & Ht').
  assert (Hrev : rev (a ++ 110%N :: c :: t) = rev (b ++ 105%N :: 110%N :: t'))
    by (now rewrite <- Ha, <- Hb).
  rewrite !rev_app_distr in Hrev.
  destruct Ht as [-> | ->], Ht' as [-> | ->]; simpl in Hrev;
    repeat rewrite <- app_assoc in Hrev; simpl in Hrev;
    injection Hrev; intros; subst; try discriminate; now apply Hc.
Qed.

End Markers.

(** ** The loop of [check_message] *)

Section Matcher.

Context {rt : Runtime}.

Lemma check_entry_decide (start_timestamp : option datetime) (msg : json) :
  check_entry start_timestamp msg =
  match read_entry msg with
  | Ok (timestamp, message) => Ok (decide start_timestamp timestamp message)
  | Raise e => Raise e
  end.
Proof.
  unfold check_entry, read_entry, decide, matches, rbind.
  destruct (getitem msg "__REALTIME_TIMESTAMP") as [field|]; [|reflexivity].
  destruct (py_int field) as [n|]; [|reflexivity].
  destruct (fromtimestamp n) as [timestamp|]; [|reflexivity].
  destruct (getitem msg "MESSAGE") as [message|]; [|reflexivity].
  destruct message, start_timestamp; try reflexivity;
    repeat match goal with
           | |- context [re_match ?d ?p ?m] => destruct (re_match d p m)
           end; reflexivity.
Qed.

Variable log : nat -> option str.

Lemma loop_step (n k : nat) (st : option datetime) (ts : datetime) (m : json) :
  entry log k = Some (ts, m) ->
  check_message_loop (S n) (read_log log) k st =
  match decide st ts m with
  | Return restart => Done restart
  | Continue st' => check_message_loop n (read_log log) (S k) st'
  end.
Proof.
  unfold entry. intros H. cbn [check_message_loop].
  destruct (read_log log k) as [[msg|e]|]; try discriminate.
  rewrite check_entry_decide.
  destruct (read_entry msg) as [[ts' m']|e]; [|discriminate].
  injection H as -> ->. reflexivity.
Qed.

(** Once the loop has returned or raised, more entries change nothing. *)
Lemma loop_stable (n m i : nat) (st : option datetime) :
  check_message_loop n (read_log log) i st <> Pending ->
  check_message_loop (n + m) (read_log log) i st = check_message_loop n (read_log log) i st.
Proof.
  revert i st. induction n as [|n IH]; intros i st H.
  - now contradiction H.
  - cbn [check_message_loop Nat.add] in *.
    destruct (read_log log i) as [[msg|e]|]; try reflexivity.
    destruct (check_entry st msg) as [[st'|restart]|e]; try reflexivity.
    now apply IH.
Qed.

Lemma started_at_entry (k : nat) :
  started_at log k = true ->
  exists ts m, entry log k = Some (ts, m) /\ matches START_MESSAGE m = true.
Proof.
  unfold started_at. destruct (entry log k) as [[ts m]|]; [|discriminate].
  intros H. now exists ts, m.
Qed.

Lemma ready_at_entry (k : nat) :
  ready_at log k = true ->
  exists ts m, entry log k = Some (ts, m) /\ matches END_MESSAGE m = true.
Proof.
  unfold ready_at. destruct (entry log k) as [[ts m]|]; [|discriminate].
  intros H. now exists ts, m.
Qed.

Lemma matches_disjoint (m : json) :
  matches START_MESSAGE m = true -> matches END_MESSAGE m = false.
Proof.
  destruct m; simpl; try reflexivity. apply markers_disjoint.
Qed.

Lemma ready_not_started (k : nat) :
  ready_at log k = true -> started_at log k = false.
Proof.
  intros H. destruct (ready_at_entry k H) as (ts & m & He & Hm).
  unfold started_at. rewrite He.
  destruct (matches START_MESSAGE m) eqn:Hs; [|reflexivity].
  apply matches_disjoint in Hs. congruence.
Qed.

Lemma last_start_none (k : nat) :
  last_start log k = None <-> (forall i, (i < k)%nat -> started_at log i = false).
Proof.
  induction k as [|k IH]; cbn [last_start].
  - split; [intros _ i Hi; lia | reflexivity].
  - destruct (started_at log k) eqn:Hk.
    + split.
      * intros Hnone. destruct (started_at_entry k Hk) as (ts & m & He & _).
        unfold timestamp_at in Hnone. rewrite He in Hnone. discriminate.
      * intros H. rewrite (H k) in Hk by lia. discriminate.
    + rewrite IH. split; intros H i Hi.
      * destruct (Nat.eq_dec i k) as [->|]; [assumption | apply H; lia].
      * apply H. lia.
Qed.

Lemma last_start_some (k : nat) (t : datetime) :
  last_start log k = Some t ->
  exists i, (i < k)%nat /\ started_at log i = true /\ timestamp_at log i = Some t /\
            forall k', (i < k' < k)%nat -> started_at log k' = false.
Proof.
  induction k as [|k IH]; cbn [last_start]; [discriminate|].
  destruct (started_at log k) eqn:Hk; intros H.
  - exists k. repeat split; auto. intros k' Hk'. lia.
  - destruct (IH H) as (i & Hi & Hs & Ht & Hlast).
    exists i. repeat split; auto.
    intros k' Hk'. destruct (Nat.eq_dec k' k) as [->|]; [assumption | apply Hlast; lia].
Qed.


(** While nothing makes it return, the loop carries the timestamp of
    the last start marker. *)
Lemma loop_prefix (k : nat) :
  waiting_until log k ->
  forall n,
    check_message_loop (k + n) (read_log log) 0 None =
    check_message_loop n (read_log log) k (last_start log k).
Proof.
  induction k as [|k IH]; intros [Hread Hquiet] n; [reflexivity|].
  replace (S k + n)%nat with (k + S n)%nat by lia.
  rewrite IH.
  2:{ split; [intros i Hi; apply Hread; lia | intros i Hi; apply Hquiet; lia]. }
  destruct (entry log k) as [[ts m]|] eqn:He.
  2:{ exfalso. now apply (Hread k); [lia|]. }
  rewrite (loop_step _ _ _ _ _ He).
  cbn [last_start]. unfold started_at, timestamp_at, decide. rewrite He. cbn [option_map fst].
  destruct (matches START_MESSAGE m) eqn:Hs; [reflexivity|].
  destruct (last_start log k) as [start|] eqn:Hl; [|reflexivity].
  destruct (matches END_MESSAGE m) eqn:Hr; [|reflexivity].
  exfalso. assert (Hk : ready_at log k = true) by (unfold ready_at; now rewrite He).
  specialize (Hquiet k (Nat.lt_succ_diag_r k) Hk). congruence.
Qed.

Lemma waiting_is_pending (k : nat) :
  waiting_until log k -> check_message_loop k (read_log log) 0 None = Pending.
Proof.
  intros H. pose proof (loop_prefix k H 0%nat) as E.
  rewrite Nat.add_0_r in E. rewrite E. reflexivity.
Qed.

Lemma waiting_step (k : nat) :
  waiting_until log k ->
  entry log k <> None ->
  (ready_at log k = true -> last_start log k = None) ->
  waiting_until log (S k).
Proof.
  intros [Hread Hquiet] He Hk. split.
  - intros i Hi. destruct (Nat.eq_dec i k) as [->|]; [assumption | apply Hread; lia].
  - intros i Hi. destruct (Nat.eq_dec i k) as [->|]; [assumption | apply Hquiet; lia].
Qed.

(** The loop returns at a ready marker that follows a start marker. *)
Lemma loop_returns (j : nat) (start t_j : datetime) :
  waiting_until log j ->
  last_start log j = Some start ->
  ready_at log j = true ->
  timestamp_at log j = Some t_j ->
  forall n, check_message_loop (j + S n) (read_log log) 0 None = Done (datetime_sub t_j start).
Proof.
  intros Hw Hl Hr Ht n.
  rewrite (loop_prefix j Hw), Hl.
  destruct (ready_at_entry j Hr) as (ts & m & He & Hm).
  rewrite (loop_step _ _ _ _ _ He).
  unfold timestamp_at in Ht. rewrite He in Ht. injection Ht as ->.
  unfold decide. rewrite Hm.
  destruct (matches START_MESSAGE m) eqn:Hs; [|reflexivity].
  apply matches_disjoint in Hs. congruence.
Qed.

Lemma loop_unreadable (n k : nat) (st : option datetime) (restart : timedelta) :
  entry log k = None ->
  check_message_loop n (read_log log) k st <> Done restart.
Proof.
  unfold entry. intros He. destruct n as [|n]; cbn [check_message_loop]; [discriminate|].
  destruct (read_log log k) as [[msg|e]|]; try discriminate.
  rewrite check_entry_decide.
  destruct (read_entry msg) as [[ts m]|e]; discriminate.
Qed.

(** What a return at the [j]-th entry tells about the log. *)
Lemma returns_at_inv (j : nat) (restart : timedelta) :
  returns_at log j restart ->
  waiting_until log j /\
  exists start t_j,
    last_start log j = Some start /\ ready_at log j = true /\
    timestamp_at log j = Some t_j /\ restart = datetime_sub t_j start.
Proof.
  intros [Hpend Hdone].
  assert (Hw : forall k, (k <= j)%nat -> waiting_until log k).
  { induction k as [|k IH]; intros Hk.
    - split; intros i Hi; lia.
    - assert (Hwk : waiting_until log k) by (apply IH; lia).
      pose proof (loop_prefix k Hwk (S (j - k))) as E.
      replace (k + S (j - k))%nat with (S j) in E by lia.
      rewrite Hdone in E.
      destruct (entry log k) as [[ts m]|] eqn:He.
      + apply waiting_step; [assumption | congruence |].
        intros Hr.
        destruct (last_start log k) as [start|] eqn:Hl; [|reflexivity].
        exfalso.
        pose proof (loop_returns k start ts Hwk Hl Hr
                      ltac:(unfold timestamp_at; now rewrite He) (j - S k)) as R.
        replace (k + S (j - S k))%nat with j in R by lia.
        congruence.
      + exfalso. symmetry in E. revert E. now apply loop_unreadable. }
  pose proof (Hw j (Nat.le_refl j)) as Hwj. split; [assumption|].
  pose proof (loop_prefix j Hwj 1%nat) as E.
  replace (j + 1)%nat with (S j) in E by lia. rewrite Hdone in E.
  destruct (entry log j) as [[ts m]|] eqn:He.
  - rewrite (loop_step _ _ _ _ _ He) in E. unfold decide in E.
    destruct (matches START_MESSAGE m) eqn:Hs; [discriminate|].
    destruct (last_start log j) as [start|]; [|discriminate].
    destruct (matches END_MESSAGE m) eqn:Hr; [|discriminate].
    injection E as ->. exists start, ts. repeat split.
    + unfold ready_at. now rewrite He.
    + unfold timestamp_at. now rewrite He.
  - exfalso. symmetry in E. revert E. now apply loop_unreadable.
Qed.


(** A run that returns does so at some entry. *)
Lemma done_returns_at (n : nat) (restart : timedelta) :
  check_message_loop n (read_log log) 0 None = Done restart ->
  exists j, (j < n)%nat /\ returns_at log j restart.
Proof.
  induction n as [|n IH]; intros H; [discriminate|].
  destruct (check_message_loop n (read_log log) 0 None) eqn:Hn.
  - pose proof (loop_stable n 1 0 None) as S1.
    rewrite Hn in S1. replace (n + 1)%nat with (S n) in S1 by lia.
    rewrite H in S1. rewrite <- S1 in IH by discriminate.
    destruct (IH eq_refl) as (j & Hj & R). exists j. split; [lia | assumption].
  - pose proof (loop_stable n 1 0 None) as S1.
    rewrite Hn in S1. replace (n + 1)%nat with (S n) in S1 by lia.
    rewrite H in S1. specialize (S1 ltac:(discriminate)). discriminate.
  - exists n. split; [lia|]. now split.
Qed.

Lemma returns_at_done (j n : nat) (restart : timedelta) :
  returns_at log j restart -> (j < n)%nat ->
  check_message_loop n (read_log log) 0 None = Done restart.
Proof.
  intros [_ H] Hn. replace n with (S j + (n - S j))%nat by lia.
  rewrite loop_stable; [assumption | rewrite H; discriminate].
Qed.

End Matcher.

(** ** [check_message] *)

Section CheckMessage.

Context {rt : Runtime}.
Variable world : World.

Lemma check_message_unfold (fuel : nat) (st : State) :
  check_message world fuel st =
  (check_message_loop fuel (read_log (journalctl world (journal_procs st))) 0 None,
   opened st).
Proof. reflexivity. Qed.










(** C8.  [check_message] returns only on reading a ready marker that a
    start marker strictly precedes; while no start is recorded, an
    entry that matches the ready pattern leaves the loop running with
    no start recorded, so a readable stretch of the log without start
    markers is passed over whatever it holds. *)
Theorem check_message_needs_an_earlier_start (st : State) (log : nat -> option str) :
  journalctl world (journal_procs st) = log ->
  (forall fuel restart,
      fst (check_message world fuel st) = Done restart ->
      exists i j,
        (i < j < fuel)%nat /\ returns_at log j restart /\
        started_at log i = true /\ ready_at log j = true) /\
  (forall msg timestamp message,
      read_entry msg = Ok (timestamp, message) ->
      matches END_MESSAGE message = true ->
      check_entry None msg = Ok (Continue None)) /\
  (forall n,
      readable_upto log n ->
      (forall k, (k < n)%nat -> started_at log k = false) ->
      forall m,
        check_message_loop (n + m) (read_log log) 0 None =
        check_message_loop m (read_log log) n None).
Proof.
  intros Hlog. split; [|split].
  - intros fuel restart Hdone.
    rewrite check_message_unfold, Hlog in Hdone. cbn [fst] in Hdone.
    destruct (done_returns_at log fuel restart Hdone) as (j & Hj & R).
    destruct (returns_at_inv log j restart R) as (_ & start & t_j & Hl & Hr & _).
    destruct (last_start_some log j start Hl) as (i & Hi & Hs & _).
    exists i, j. split; [lia | split; [exact R | split; assumption]].
  - intros msg ts m Hread Hm. rewrite check_entry_decide, Hread. unfold decide.
    destruct (matches START_MESSAGE m) eqn:Hs; [|reflexivity].
    apply matches_disjoint in Hs. congruence.
  - intros n Hread Hnone m.
    assert (Hl : forall k, (k <= n)%nat -> last_start log k = None).
    { intros k Hk. apply last_start_none. intros i Hi. apply Hnone. lia. }
    rewrite loop_prefix, (Hl n) by (try split; auto with arith).
    reflexivity.
Qed.




Lemma malformed_raises (msg : json) (e : exception) (st : option datetime) :
  malformed msg e -> check_entry st msg = Raise e.
Proof.
  intros H. unfold check_entry.
  destruct H as [d Hts | d field e Hts Hint | d field n ts Hts Hint Hfrom Hmsg];
    cbn [getitem rbind]; rewrite Hts; cbn [rbind].
  - reflexivity.
  - now rewrite Hint.
  - rewrite Hint. cbn [rbind]. rewrite Hfrom. cbn [rbind]. now rewrite Hmsg.
Qed.

(** C2, as the code has it.  An entry with both fields whose MESSAGE is
    not a [str] is skipped: it is no marker, it raises nothing, and the
    loop goes on to the next entry with its state unchanged.  A line
    that does not decode is not skipped: the decoder's exception ends
    the loop. *)
Theorem check_message_skips_non_text_only (log : nat -> option str) (k : nat) :
  (forall timestamp message,
      entry log k = Some (timestamp, message) ->
      isinstance_str message = false ->
      started_at log k = false /\ ready_at log k = false /\
      forall n st,
        check_message_loop (S n) (read_log log) k st =
        check_message_loop n (read_log log) (S k) st) /\
  (forall e,
      read_log log k = Some (Raise e) ->
      forall n st, check_message_loop (S n) (read_log log) k st = Raised e).
Proof.
  split.
  - intros ts m He Hm.
    assert (Hno : forall pattern, matches pattern m = false)
      by (intros pattern; destruct m; try reflexivity; discriminate).
    repeat split.
    + unfold started_at. now rewrite He.
    + unfold ready_at. now rewrite He.
    + intros n st. rewrite (loop_step log _ _ _ _ _ He). unfold decide.
      rewrite !Hno. now destruct st.
  - intros e He n st. cbn [check_message_loop]. now rewrite He.
Qed.

(** C10.  Both fields are read, and the timestamp converted, before the
    message is looked at: when the loop reaches an entry that lacks
    [__REALTIME_TIMESTAMP] or [MESSAGE], or whose timestamp [int]
    refuses, [check_message] ends with that exception, whatever the
    loop had recorded and whatever the MESSAGE field holds. *)
Theorem check_message_aborts_on_malformed_entry
  (st : State) (log : nat -> option str) (k : nat) (msg : json) (e : exception) :
  journalctl world (journal_procs st) = log ->
  waiting_until log k ->
  read_log log k = Some (Ok msg) ->
  malformed msg e ->
  (forall start_timestamp, check_entry start_timestamp msg = Raise e) /\
  forall fuel, (k < fuel)%nat ->
    check_message world fuel st = (Raised e, opened st).
Proof.
  intros Hlog Hw Hk Hbad. split; [intros s0; now apply malformed_raises|].
  intros fuel Hfuel. rewrite check_message_unfold, Hlog.
  replace fuel with (k + S (fuel - S k))%nat by lia.
  rewrite (loop_prefix log k Hw). cbn [check_message_loop]. rewrite Hk.
  now rewrite (malformed_raises msg e _ Hbad).
Qed.

End CheckMessage.

(** ** The restart loop *)

Section Restarts.

Context {rt : Runtime}.
Variable world : World.
Variable fuel : nat.

Lemma restart_service_unfold (st : State) :
  restart_service world st =
  if systemctl world (restart_calls st) =? 0
  then (Done tt, {| restart_calls := S (restart_calls st);
                    journal_procs := journal_procs st;
                    printed := printed st |})
  else (Raised (SystemExit 1), refused st (systemctl world (restart_calls st))).
Proof.
  unfold restart_service, bind, call_systemctl.
  destruct (systemctl world (restart_calls st) =? 0); reflexivity.
Qed.

(** One pass of the loop of [restart_by_count]. *)
Lemma restart_each_cons (num : Z) (nums : list Z) (acc : list timedelta) (st : State) :
  restart_each world fuel (num :: nums) acc st =
  if systemctl world (restart_calls st) =? 0 then
    match check_message_loop fuel (read_log (journalctl world (journal_procs st))) 0 None with
    | Done r => restart_each world fuel nums (acc ++ [r]) (cycled st num r)
    | Raised e => (Raised e, {| restart_calls := S (restart_calls st);
                                journal_procs := S (journal_procs st);
                                printed := printed st |})
    | Pending => (Pending, {| restart_calls := S (restart_calls st);
                              journal_procs := S (journal_procs st);
                              printed := printed st |})
    end
  else (Raised (SystemExit 1), refused st (systemctl world (restart_calls st))).
Proof.
  cbn [restart_each]. unfold bind at 1. cbn [ProgressBar_start ret].
  unfold bind at 1. rewrite restart_service_unfold.
  destruct (systemctl world (restart_calls st) =? 0); [|reflexivity].
  unfold bind at 1. rewrite check_message_unfold. cbn [journal_procs].
  destruct (check_message_loop fuel _ 0 None); reflexivity.
Qed.

Lemma restart_each_done (nums : list Z) :
  forall acc st l st',
    restart_each world fuel nums acc st = (Done l, st') ->
    exists ds,
      l = acc ++ ds /\ List.length ds = List.length nums /\
      forall k d, nth_error ds k = Some d -> measured world fuel st k d.
Proof.
  induction nums as [|num nums IH]; intros acc st l st' H.
  - injection H as <- <-. exists []. rewrite app_nil_r.
    split; [reflexivity | split; [reflexivity | intros [|k] d Hk; discriminate]].
  - rewrite restart_each_cons in H.
    destruct (systemctl world (restart_calls st) =? 0) eqn:Hrc; [|discriminate].
    destruct (check_message_loop fuel _ 0 None) as [r| |] eqn:Hr; try discriminate.
    destruct (IH _ _ _ _ H) as (ds & -> & Hlen & Hds).
    exists (r :: ds). rewrite <- app_assoc.
    split; [reflexivity | split].
    + cbn [List.length]. now rewrite Hlen.
    + intros [|k] d Hk; cbn [nth_error] in Hk.
      * injection Hk as <-. split; rewrite Nat.add_0_r; [now apply Z.eqb_eq | assumption].
      * destruct (Hds k d Hk) as [Hk1 Hk2].
        cbn [cycled restart_calls journal_procs] in Hk1, Hk2.
        split; now rewrite Nat.add_succ_r.
Qed.

Lemma restart_each_complete (nums : list Z) :
  forall acc st ds,
    List.length ds = List.length nums ->
    (forall k d, nth_error ds k = Some d -> measured world fuel st k d) ->
    exists st', restart_each world fuel nums acc st = (Done (acc ++ ds), st').
Proof.
  induction nums as [|num nums IH]; intros acc st ds Hlen Hds.
  - destruct ds; [|discriminate]. exists st. now rewrite app_nil_r.
  - destruct ds as [|r ds]; [discriminate|].
    destruct (Hds 0%nat r eq_refl) as [Hrc Hr]. rewrite Nat.add_0_r in Hrc, Hr.
    rewrite restart_each_cons, Hrc, Hr. cbn [Z.eqb].
    destruct (IH (acc ++ [r]) (cycled st num r) ds) as (st' & E).
    + now injection Hlen.
    + intros k d Hk. destruct (Hds (S k) d Hk) as [Hrc' Hr'].
      rewrite Nat.add_succ_r in Hrc', Hr'. now split.
    + exists st'. rewrite E, <- app_assoc. reflexivity.
Qed.

Lemma range_length (a b : Z) : List.length (range a b) = Z.to_nat (b - a).
Proof. unfold range. now rewrite length_map, length_seq. Qed.

(** C5.  [restart_by_count count] returns a list exactly when every one
    of the [count] cycles restarts the service and measures a duration;
    the list then holds exactly [count] durations, the [k]-th being the
    one measured in the [k]-th cycle. *)
Theorem restart_by_count_measures_each_cycle
  (count : Z) (st : State) (l : list timedelta) :
  0 <= count ->
  (exists st', restart_by_count world fuel count st = (Done l, st')) <->
  (Z.of_nat (List.length l) = count /\
   forall k d, nth_error l k = Some d -> measured world fuel st k d).
Proof.
  intros Hcount. unfold restart_by_count.
  assert (Hlen : List.length (range 1 (count + 1)) = Z.to_nat count).
  { rewrite range_length. f_equal. lia. }
  split.
  - intros (st' & H). apply restart_each_done in H as (ds & -> & Hds & Hm).
    cbn [app]. split; [|assumption]. rewrite Hds, Hlen. lia.
  - intros [Hl Hm].
    destruct (restart_each_complete (range 1 (count + 1)) [] st l) as (st' & E);
      [rewrite Hlen; lia | assumption |].
    now exists st'.
Qed.

(** Every restart the loop asks for and the supervisor refuses ends the
    loop there. *)
Lemma restart_each_refused (nums : list Z) :
  forall acc st o st',
    restart_each world fuel nums acc st = (o, st') ->
    forall k, (restart_calls st <= k < restart_calls st')%nat ->
    systemctl world k <> 0 ->
    o = Raised (SystemExit 1) /\
    restart_calls st' = S k /\
    (journal_procs st' + restart_calls st = journal_procs st + k)%nat /\
    exists progress,
      printed st' =
        printed st ++ progress ++ [ExitedWithCode SERVICE_NAME (systemctl world k)] /\
      Forall (fun x => is_summary x = false) progress.
Proof.
  induction nums as [|num nums IH]; intros acc st o st' H k Hk Hrc.
  - injection H as <- <-. lia.
  - rewrite restart_each_cons in H.
    destruct (systemctl world (restart_calls st) =? 0) eqn:Hz.
    + apply Z.eqb_eq in Hz.
      assert (Hne : k <> restart_calls st) by (intros ->; contradiction).
      destruct (check_message_loop fuel _ 0 None) as [r| |].
      * destruct (IH _ _ _ _ H k) as (Ho & Hcalls & Hprocs & progress & Hprinted & Hall).
        { cbn [cycled restart_calls]. lia. }
        { assumption. }
        cbn [cycled restart_calls journal_procs printed] in *.
        repeat split; [assumption | assumption | lia |].
        exists (Cleared (RestartLabel num) :: Finished (RestartLabel num) r :: progress).
        split; [|repeat constructor; assumption].
        rewrite Hprinted. repeat rewrite <- app_assoc. reflexivity.
      * injection H as <- <-. cbn [restart_calls] in Hk. lia.
      * injection H as <- <-. cbn [restart_calls] in Hk. lia.
    + injection H as <- <-. cbn [refused restart_calls journal_procs printed] in *.
      assert (k = restart_calls st) as -> by lia.
      split; [reflexivity | split; [reflexivity | split; [lia|]]].
      exists []. split; [reflexivity | constructor].
Qed.

Lemma print_results_calls (restarts : list timedelta) (st st' : State) (o : outcome unit) :
  print_results restarts st = (o, st') ->
  restart_calls st' = restart_calls st /\ journal_procs st' = journal_procs st.
Proof.
  unfold print_results, bind, lift, print.
  destruct (py_min restarts); [|intros H; injection H as <- <-; auto].
  destruct (py_max restarts); [|intros H; injection H as <- <-; auto].
  destruct (py_sum restarts 0); [|intros H; injection H as <- <-; auto].
  destruct (timedelta_truediv _ _); intros H; injection H as <- <-; auto.
Qed.

(** C4.  In any run of [main], a call of the supervisor that returns a
    non-zero status ends the program: the diagnostic with the service
    name and the status is the last thing printed, the exit status is
    1, no restart and no journal follows, and no line of the summary is
    printed. *)
Theorem main_exits_on_refused_restart
  (count : Z) (st st' : State) (o : outcome unit) (k : nat) :
  main world fuel count st = (o, st') ->
  (restart_calls st <= k < restart_calls st')%nat ->
  systemctl world k <> 0 ->
  o = Raised (SystemExit 1) /\
  exit_status o = Some 1 /\
  restart_calls st' = S k /\
  (journal_procs st' + restart_calls st = journal_procs st + k)%nat /\
  exists progress,
    printed st' =
      printed st ++ progress ++ [ExitedWithCode SERVICE_NAME (systemctl world k)] /\
    Forall (fun x => is_summary x = false) progress.
Proof.
  intros H Hk Hrc. unfold main, bind in H.
  destruct (restart_by_count world fuel count st) as [[l| |] st1] eqn:E.
  - exfalso. apply print_results_calls in H as [Hcalls _].
    unfold restart_by_count in E.
    destruct (restart_each_refused _ _ _ _ _ E k) as (Ho & _); [lia | assumption |].
    discriminate.
  - injection H as <- <-. unfold restart_by_count in E.
    destruct (restart_each_refused _ _ _ _ _ E k Hk Hrc) as (Ho & H1 & H2 & H3).
    injection Ho as ->. repeat split; assumption.
  - injection H as <- <-. unfold restart_by_count in E.
    destruct (restart_each_refused _ _ _ _ _ E k Hk Hrc) as (Ho & _). discriminate.
Qed.

Lemma range_empty (a b : Z) : b <= a -> range a b = [].
Proof.
  intros H. unfold range. replace (Z.to_nat (b - a)) with 0%nat by lia. reflexivity.
Qed.

(** C9.  With a count of zero or less nothing is restarted and the list
    of durations is empty; [min] then raises on it, so [main] ends with
    [ValueError], an exit status of 1 and nothing printed.  An exit
    status of 0 is only met with a count of at least one. *)
Theorem main_crashes_without_restarts (count : Z) (st : State) :
  (count <= 0 ->
   restart_by_count world fuel count st = (Done [], st) /\
   print_results [] st = (Raised ValueError, st) /\
   main world fuel count st = (Raised ValueError, st) /\
   exit_status (fst (main world fuel count st)) = Some 1) /\
  (exit_status (fst (main world fuel count st)) = Some 0 -> 1 <= count).
Proof.
  assert (H : count <= 0 ->
              restart_by_count world fuel count st = (Done [], st) /\
              main world fuel count st = (Raised ValueError, st)).
  { intros Hc. assert (E : restart_by_count world fuel count st = (Done [], st)).
    { unfold restart_by_count. rewrite range_empty by lia. reflexivity. }
    split; [assumption|]. unfold main, bind. now rewrite E. }
  split.
  - intros Hc. destruct (H Hc) as [E1 E2]. rewrite E2. repeat split; assumption.
  - intros Hs. destruct (Z_le_gt_dec count 0) as [Hc|Hc]; [|lia].
    destruct (H Hc) as [_ E]. rewrite E in Hs. discriminate.
Qed.

End Restarts.

(** ** The summary *)

Section Summary.

Lemma fold_min_spec (l : list Z) :
  forall x,
    let m := fold_left (fun m y => if y <? m then y else m) l x in
    In m (x :: l) /\ forall y, In y (x :: l) -> m <= y.
Proof.
  induction l as [|a l IH]; intros x; cbn [fold_left].
  - split; [now left|]. intros y [<-|[]]. lia.
  - destruct (IH (if a <? x then a else x)) as [Hin Hle].
    split.
    + destruct Hin as [Hin|Hin]; [|right; now right].
      rewrite <- Hin. destruct (a <? x); [right; now left | now left].
    + intros y Hy.
      assert (Hm : fold_left (fun m y => if y <? m then y else m) l
                     (if a <? x then a else x) <= (if a <? x then a else x))
        by (apply Hle; now left).
      destruct Hy as [<-|[<-|Hy]].
      * destruct (Z.ltb_spec a x); lia.
      * destruct (Z.ltb_spec a x); lia.
      * apply Hle. now right.
Qed.

Lemma fold_max_spec (l : list Z) :
  forall x,
    let m := fold_left (fun m y => if m <? y then y else m) l x in
    In m (x :: l) /\ forall y, In y (x :: l) -> y <= m.
Proof.
  induction l as [|a l IH]; intros x; cbn [fold_left].
  - split; [now left|]. intros y [<-|[]]. lia.
  - destruct (IH (if x <? a then a else x)) as [Hin Hle].
    split.
    + destruct Hin as [Hin|Hin]; [|right; now right].
      rewrite <- Hin. destruct (x <? a); [right; now left | now left].
    + intros y Hy.
      assert (Hm : (if x <? a then a else x) <=
                   fold_left (fun m y => if m <? y then y else m) l
                     (if x <? a then a else x))
        by (apply Hle; now left).
      destruct Hy as [<-|[<-|Hy]].
      * destruct (Z.ltb_spec x a); lia.
      * destruct (Z.ltb_spec x a); lia.
      * apply Hle. now right.
Qed.

Lemma py_min_spec (l : list timedelta) :
  l <> [] ->
  exists m, py_min l = Ok m /\ In m l /\ forall y, In y l -> m <= y.
Proof.
  destruct l as [|x l]; [congruence|]. intros _.
  eexists. split; [reflexivity|]. apply fold_min_spec.
Qed.

Lemma py_max_spec (l : list timedelta) :
  l <> [] ->
  exists m, py_max l = Ok m /\ In m l /\ forall y, In y l -> y <= m.
Proof.
  destruct l as [|x l]; [congruence|]. intros _.
  eexists. split; [reflexivity|]. apply fold_max_spec.
Qed.

Lemma py_sum_spec (l : list timedelta) :
  forall start,
    forallb timedelta_in_range (partial_sums l start) = true ->
    py_sum l start = Ok (start + total l).
Proof.
  induction l as [|x l IH]; intros start H; cbn [py_sum total fold_right].
  - now rewrite Z.add_0_r.
  - cbn [partial_sums forallb] in H. apply andb_true_iff in H as [Hx H].
    unfold timedelta_add, new_timedelta. rewrite Hx, IH by assumption.
    f_equal. fold (total l). lia.
Qed.

Lemma py_sum_overflow (l : list timedelta) :
  forall start,
    forallb timedelta_in_range (partial_sums l start) = false ->
    py_sum l start = Raise OverflowError.
Proof.
  induction l as [|x l IH]; intros start H; cbn [py_sum partial_sums forallb] in *.
  - discriminate.
  - unfold timedelta_add, new_timedelta.
    destruct (timedelta_in_range (start + x)); [now apply IH | reflexivity].
Qed.

Lemma total_between (l : list timedelta) (lo hi : Z) :
  (forall y, In y l -> lo <= y <= hi) ->
  lo * Z.of_nat (List.length l) <= total l <= hi * Z.of_nat (List.length l).
Proof.
  induction l as [|x l IH]; intros H; cbn [List.length total fold_right].
  - lia.
  - fold (total l). rewrite Nat2Z.inj_succ.
    pose proof (H x (or_introl eq_refl)).
    assert (forall y, In y l -> lo <= y <= hi) by (intros y Hy; apply H; now right).
    specialize (IH H1). lia.
Qed.

Lemma divide_and_round_nearest (a b : Z) :
  0 < b -> 2 * Z.abs (divide_and_round a b * b - a) <= b.
Proof.
  intros Hb. unfold divide_and_round.
  pose proof (Z.div_mod a b ltac:(lia)) as E.
  pose proof (Z.mod_pos_bound a b Hb) as R.
  destruct (0 <? b) eqn:Hpos; [|apply Z.ltb_ge in Hpos; lia].
  destruct (Z.ltb_spec b (a mod b * 2)); cbn [orb].
  - nia.
  - destruct (Z.eqb_spec (a mod b * 2) b); cbn [andb].
    + destruct (a / b mod 2 =? 1); nia.
    + nia.
Qed.

Lemma divide_and_round_between (a b lo hi : Z) :
  0 < b -> lo * b <= a <= hi * b -> lo <= divide_and_round a b <= hi.
Proof.
  intros Hb H. unfold divide_and_round.
  pose proof (Z.div_mod a b ltac:(lia)) as E.
  pose proof (Z.mod_pos_bound a b Hb) as R.
  destruct (0 <? b) eqn:Hpos; [|apply Z.ltb_ge in Hpos; lia].
  destruct (Z.ltb_spec b (a mod b * 2)); cbn [orb].
  - nia.
  - destruct (Z.eqb_spec (a mod b * 2) b); cbn [andb].
    + destruct (a / b mod 2 =? 1); nia.
    + nia.
Qed.

Lemma timedelta_in_range_between (lo hi x : Z) :
  timedelta_in_range lo = true -> timedelta_in_range hi = true ->
  lo <= x <= hi -> timedelta_in_range x = true.
Proof.
  unfold timedelta_in_range. intros Hlo Hhi Hx.
  apply andb_true_iff in Hlo as [Hlo _]. apply andb_true_iff in Hhi as [_ Hhi].
  apply andb_true_iff. split; [apply Z.leb_le in Hlo; apply Z.leb_le | apply Z.ltb_lt in Hhi; apply Z.ltb_lt]; lia.
Qed.

(** C6.  For a non-empty list of durations, [print_results] prints the
    rule, the count with the total, and the minimum, maximum and
    average: the total is the sum of the durations, the minimum and the
    maximum are the least and the greatest of them, the average is the
    total divided by the count to the nearest microsecond, and it lies
    between the minimum and the maximum.  The one way out is a running
    sum beyond the range of [timedelta]: then [sum] raises and nothing
    is printed. *)
Theorem print_results_statistics (restarts : list timedelta) (st : State) :
  restarts <> [] ->
  forallb timedelta_in_range restarts = true ->
  (forallb timedelta_in_range (partial_sums restarts 0) = true /\
   exists min_time max_time avg_time,
     print_results restarts st =
       (Done tt,
        {| restart_calls := restart_calls st;
           journal_procs := journal_procs st;
           printed := printed st ++
                      [Rule 40;
                       Totals (List.length restarts) (total restarts);
                       MinMaxAvg min_time max_time avg_time] |}) /\
     In min_time restarts /\ In max_time restarts /\
     (forall x, In x restarts -> min_time <= x <= max_time) /\
     2 * Z.abs (avg_time * Z.of_nat (List.length restarts) - total restarts)
       <= Z.of_nat (List.length restarts) /\
     min_time <= avg_time <= max_time) \/
  (forallb timedelta_in_range (partial_sums restarts 0) = false /\
   print_results restarts st = (Raised OverflowError, st)).
Proof.
  intros Hne Hvalid.
  destruct (py_min_spec restarts Hne) as (mn & Emin & Hmin_in & Hmin).
  destruct (py_max_spec restarts Hne) as (mx & Emax & Hmax_in & Hmax).
  destruct (forallb timedelta_in_range (partial_sums restarts 0)) eqn:Hsums.
  2:{ right. split; [reflexivity|].
      unfold print_results, bind, lift. rewrite Emin, Emax.
      now rewrite (py_sum_overflow restarts 0 Hsums). }
  left. split; [reflexivity|].
  pose proof (py_sum_spec restarts 0 Hsums) as Esum. rewrite Z.add_0_l in Esum.
  set (r := Z.of_nat (List.length restarts)).
  assert (Hr : 0 < r) by (subst r; destruct restarts; [congruence | cbn [List.length]; lia]).
  assert (Hbetween : mn * r <= total restarts <= mx * r).
  { apply total_between. intros y Hy. split; [now apply Hmin | now apply Hmax]. }
  pose proof (divide_and_round_between _ _ _ _ Hr Hbetween) as Havg.
  pose proof (divide_and_round_nearest (total restarts) r Hr) as Hnear.
  rewrite forallb_forall in Hvalid.
  assert (Hrange : timedelta_in_range (divide_and_round (total restarts) r) = true).
  { apply (timedelta_in_range_between mn mx); auto. }
  exists mn, mx, (divide_and_round (total restarts) r).
  split; [|split; [assumption | split; [assumption | split; [|split; assumption]]]].
  - unfold print_results, bind, lift, print. rewrite Emin, Emax, Esum.
    unfold timedelta_truediv, new_timedelta. fold r.
    destruct (Z.eqb_spec r 0) as [|_]; [lia|]. rewrite Hrange.
    cbn [restart_calls journal_procs printed]. repeat rewrite <- app_assoc. reflexivity.
  - intros x Hx. split; [now apply Hmin | now apply Hmax].
Qed.

End Summary.

(** * Further properties *)

(** ** What the two patterns match *)

Section Patterns.

Variable isdecimal : N -> bool.

Lemma match_star_join (ok : N -> bool) (k : str -> bool) (taken rest : str) :
  forallb ok taken = true -> k rest = true -> match_star ok k (taken ++ rest) = true.
Proof.
  induction taken as [|c taken IH]; cbn [forallb app]; intros Hall Hk.
  - destruct rest; cbn [match_star]; now rewrite Hk.
  - apply andb_true_iff in Hall as [Hc Hall].
    cbn [match_star]. rewrite Hc, (IH Hall Hk). apply orb_true_r.
Qed.

Lemma match_literal_eq (w : str) (pat : list item) (rest : str) :
  match_here isdecimal (literal w ++ pat) (w ++ rest) = match_here isdecimal pat rest.
Proof.
  induction w as [|c w IH]; [reflexivity|].
  cbn [literal map app match_here accepts]. now rewrite N.eqb_refl, <- IH.
Qed.

Lemma at_end_line_end (tail : str) : at_end tail = true <-> line_end tail.
Proof.
  split; [apply at_end_cases|]. now intros [-> | ->].
Qed.

(** X1.  The start pattern matches exactly the messages made of a stretch
    without newline, the words [Started Agoric Cosmos daemon], one more
    character that is no newline (the unescaped dot of the pattern: any
    character will do, a full stop is not required) and at most a final
    newline. *)
Theorem START_MESSAGE_matches (s : str) :
  re_match isdecimal START_MESSAGE s = true <->
  exists before c tail,
    s = before ++ lit "Started Agoric Cosmos daemon" ++ c :: tail /\
    no_newline before = true /\ c <> NEWLINE /\ line_end tail.
Proof.
  unfold re_match. rewrite START_MESSAGE_compiled. cbn [match_here]. split.
  - intros H.
    apply match_star_split in H as (before & rest & -> & Hbefore & H).
    apply match_literal in H as (rest' & -> & H).
    cbn [match_here] in H.
    destruct rest' as [|c tail]; [discriminate|].
    apply andb_true_iff in H as [Hc H].
    rewrite andb_true_r in H. apply at_end_line_end in H.
    exists before, c, tail. repeat split; try assumption.
    cbn [accepts] in Hc. intros ->. discriminate.
  - intros (before & c & tail & -> & Hbefore & Hc & Htail).
    apply match_star_join; [exact Hbefore|].
    rewrite match_literal_eq. cbn [match_here accepts].
    apply at_end_line_end in Htail. rewrite Htail.
    destruct (N.eqb_spec c NEWLINE); [contradiction | reflexivity].
Qed.

(** X2.  The ready pattern matches exactly the messages made of a stretch
    without newline, the words [block-manager: block ], one or more
    decimal digits, the word [ begin] and at most a final newline. *)
Theorem END_MESSAGE_matches (s : str) :
  re_match isdecimal END_MESSAGE s = true <->
  exists before d ds tail,
    s = before ++ lit "block-manager: block " ++ d :: ds ++ lit " begin" ++ tail /\
    no_newline before = true /\ forallb isdecimal (d :: ds) = true /\ line_end tail.
Proof.
  unfold re_match. rewrite END_MESSAGE_compiled. cbn [match_here]. split.
  - intros H.
    apply match_star_split in H as (before & rest & -> & Hbefore & H).
    apply match_literal in H as (rest' & -> & H).
    cbn [match_here] in H.
    destruct rest' as [|d rest']; [discriminate|].
    apply andb_true_iff in H as [Hd H].
    apply match_star_split in H as (ds & rest'' & -> & Hds & H).
    apply match_literal in H as (tail & -> & H).
    cbn [match_here] in H. rewrite andb_true_r in H. apply at_end_line_end in H.
    exists before, d, ds, tail. repeat split; try assumption.
    cbn [forallb]. cbn [accepts] in Hd. now rewrite Hd.
  - intros (before & d & ds & tail & -> & Hbefore & Hds & Htail).
    cbn [forallb] in Hds. apply andb_true_iff in Hds as [Hd Hds].
    apply match_star_join; [exact Hbefore|].
    rewrite match_literal_eq. cbn [match_here accepts]. rewrite Hd. cbn [andb].
    apply match_star_join; [exact Hds|].
    rewrite match_literal_eq. cbn [match_here].
    apply at_end_line_end in Htail. now rewrite Htail.
Qed.

End Patterns.

(** ** [check_message] and the log *)

Section Log.

Context {rt : Runtime}.

(** X3.  No message is both markers: the order of the two branches of the
    loop never decides what an entry is. *)
Theorem START_MESSAGE_excludes_END_MESSAGE (s : str) :
  re_match isdecimal START_MESSAGE s && re_match isdecimal END_MESSAGE s = false.
Proof.
  destruct (re_match isdecimal START_MESSAGE s) eqn:Hs; [|reflexivity].
  cbn [andb]. now apply markers_disjoint.
Qed.



Lemma loop_agree (log log' : nat -> option str) (n : nat) :
  forall i st,
    (forall k, (i <= k < i + n)%nat -> log k = log' k) ->
    check_message_loop n (read_log log) i st =
    check_message_loop n (read_log log') i st.
Proof.
  induction n as [|n IH]; intros i st Hsame; [reflexivity|].
  cbn [check_message_loop]. unfold read_log at 1 3. rewrite <- (Hsame i) by lia.
  destruct (log i) as [output|]; [|reflexivity].
  destruct (read_json output) as [msg|e]; [|reflexivity].
  destruct (check_entry st msg) as [[st'|restart]|e]; try reflexivity.
  apply IH. intros k Hk. apply Hsame. lia.
Qed.

(** X5.  [check_message] returns as soon as it has read the ready entry:
    what the journal writes after it changes nothing.  Two journals
    that agree up to the entry at which the first makes
    [check_message] return make it return the same duration. *)
Theorem check_message_ignores_later_entries
  (world world' : World) (st st' : State) (j : nat) (restart : timedelta) :
  (forall k, (k <= j)%nat ->
     journalctl world (journal_procs st) k = journalctl world' (journal_procs st') k) ->
  returns_at (journalctl world (journal_procs st)) j restart ->
  returns_at (journalctl world' (journal_procs st')) j restart /\
  forall fuel, (j < fuel)%nat ->
    check_message world' fuel st' = (Done restart, opened st').
Proof.
  intros Hsame [Hpend Hdone].
  assert (R : returns_at (journalctl world' (journal_procs st')) j restart).
  { split.
    - rewrite <- Hpend. symmetry. apply loop_agree. intros k Hk. apply Hsame. lia.
    - rewrite <- Hdone. symmetry. apply loop_agree. intros k Hk. apply Hsame. lia. }
  split; [exact R|].
  intros fuel Hfuel. rewrite check_message_unfold.
  now rewrite (returns_at_done _ j fuel restart R Hfuel).
Qed.

(** X6.  A line that [read_json] cannot decode, met while [check_message] is
    still waiting, ends it with the decoder's exception; the empty line
    that [readline] returns once [journalctl] has exited is such a line
    for a decoder that refuses the empty string. *)
Theorem check_message_raises_on_undecodable_line
  (world : World) (st : State) (log : nat -> option str) (k : nat)
  (output : str) (e : exception) :
  journalctl world (journal_procs st) = log ->
  waiting_until log k ->
  log k = Some output ->
  read_json output = Raise e ->
  forall fuel, (k < fuel)%nat ->
    check_message world fuel st = (Raised e, opened st).
Proof.
  intros Hlog Hw Hk He fuel Hfuel. rewrite check_message_unfold, Hlog.
  replace fuel with (k + S (fuel - S k))%nat by lia.
  rewrite (loop_prefix log k Hw). cbn [check_message_loop].
  unfold read_log. now rewrite Hk, He.
Qed.

Lemma waiting_until_le (log : nat -> option str) (n k : nat) :
  (n <= k)%nat -> waiting_until log k -> waiting_until log n.
Proof.
  intros Hn [Hread Hquiet]. split.
  - intros i Hi. apply Hread. lia.
  - intros i Hi. apply Hquiet. lia.
Qed.

(** X7.  There is no timeout: once the journal falls silent before a ready
    marker has followed a start marker, [check_message] waits for
    ever, whatever it has already seen. *)
Theorem check_message_waits_on_silent_journal
  (world : World) (st : State) (log : nat -> option str) (k : nat) :
  journalctl world (journal_procs st) = log ->
  waiting_until log k ->
  log k = None ->
  forall fuel, check_message world fuel st = (Pending, opened st).
Proof.
  intros Hlog Hw Hk fuel. rewrite check_message_unfold, Hlog. f_equal.
  destruct (Nat.le_gt_cases fuel k) as [Hle|Hgt].
  - apply waiting_is_pending. now apply (waiting_until_le log fuel k).
  - replace fuel with (k + S (fuel - S k))%nat by lia.
    rewrite (loop_prefix log k Hw). cbn [check_message_loop].
    unfold read_log. now rewrite Hk.
Qed.

End Log.

(** ** Which entries make [check_message] raise *)

Section Raising.

Context {rt : Runtime}.

(** X8.  An entry makes the loop body raise in exactly these cases: the
    line decoded to something that is no object ([TypeError]); a field
    is missing or [int] refuses the timestamp; or [fromtimestamp]
    refuses the number.  Matching the message never raises, and what
    the loop has recorded plays no part. *)
Theorem check_entry_raises_iff
  (start_timestamp : option datetime) (msg : json) (e : exception) :
  check_entry start_timestamp msg = Raise e <->
  (match msg with JDict _ => False | _ => e = TypeError end) \/
  malformed msg e \/
  (exists d field n,
      msg = JDict d /\
      dict_get d (lit "__REALTIME_TIMESTAMP") = Some field /\
      py_int field = Ok n /\
      fromtimestamp n = Raise e).
Proof.
  split.
  - rewrite check_entry_decide. unfold read_entry.
    destruct msg as [| | | | | |d]; cbn [getitem rbind];
      try (intros H; injection H as <-; now left).
    destruct (dict_get d (lit "__REALTIME_TIMESTAMP")) as [field|] eqn:Hts; cbn [rbind].
    2:{ intros H. injection H as <-. right. left. now apply no_timestamp. }
    destruct (py_int field) as [n|e'] eqn:Hint; cbn [rbind].
    2:{ intros H. injection H as <-. right. left. now apply (bad_timestamp d field). }
    destruct (fromtimestamp n) as [ts|e'] eqn:Hfrom; cbn [rbind].
    2:{ intros H. injection H as <-. right. right. now exists d, field, n. }
    destruct (dict_get d (lit "MESSAGE")) as [message|] eqn:Hmsg; cbn [rbind].
    + discriminate.
    + intros H. injection H as <-. right. left. now apply (no_message d field n ts).
  - intros [H | [H | (d & field & n & -> & Hts & Hint & Hfrom)]].
    + destruct msg; try contradiction; subst e; reflexivity.
    + now apply malformed_raises.
    + unfold check_entry. cbn [getitem rbind]. rewrite Hts. cbn [rbind].
      rewrite Hint. cbn [rbind]. now rewrite Hfrom.
Qed.

End Raising.

(** ** The cycles of [restart_by_count] and [main] *)

Section Cycles.

Context {rt : Runtime}.
Variable world : World.
Variable fuel : nat.

Lemma range_app (a m b : Z) : a <= m <= b -> range a b = range a m ++ range m b.
Proof.
  intros H. unfold range.
  replace (Z.to_nat (b - a)) with (Z.to_nat (m - a) + Z.to_nat (b - m))%nat by lia.
  rewrite seq_app, map_app. f_equal. cbn [Nat.add].
  assert (E : forall n s,
             map (fun k => a + Z.of_nat k) (seq (Z.to_nat (m - a) + s) n) =
             map (fun k => m + Z.of_nat k) (seq s n)).
  { induction n as [|n IH]; intros s; [reflexivity|].
    cbn [seq map]. f_equal; [lia|].
    rewrite <- Nat.add_succ_r. apply IH. }
  rewrite <- (E _ 0%nat). now rewrite Nat.add_0_r.
Qed.

Lemma range_cons (a b : Z) : a < b -> range a b = a :: range (a + 1) b.
Proof.
  intros H. rewrite (range_app a (a + 1) b) by lia.
  unfold range at 1. replace (Z.to_nat (a + 1 - a)) with 1%nat by lia.
  cbn [seq map app]. f_equal. lia.
Qed.

(** The cycles that measure a duration, one after the other. *)
Lemma restart_each_measured (ds : list timedelta) :
  forall nums1 nums2 acc st,
    List.length nums1 = List.length ds ->
    (forall k d, nth_error ds k = Some d -> measured world fuel st k d) ->
    restart_each world fuel (nums1 ++ nums2) acc st =
    restart_each world fuel nums2 (acc ++ ds)
      {| restart_calls := restart_calls st + List.length ds;
         journal_procs := journal_procs st + List.length ds;
         printed := printed st ++ progress nums1 ds |}.
Proof.
  induction ds as [|d ds IH]; intros [|num nums1] nums2 acc st Hlen Hm; try discriminate.
  - cbn [app List.length progress]. rewrite !Nat.add_0_r, !app_nil_r.
    now destruct st.
  - destruct (Hm 0%nat d eq_refl) as [Hrc Hr]. rewrite Nat.add_0_r in Hrc, Hr.
    cbn [app]. rewrite restart_each_cons, Hrc, Hr. cbn [Z.eqb].
    rewrite (IH nums1 nums2 (acc ++ [d]) (cycled st num d)).
    + cbn [cycled restart_calls journal_procs printed List.length progress].
      rewrite <- !app_assoc. cbn [app]. rewrite !Nat.add_succ_r. reflexivity.
    + now injection Hlen.
    + intros k d' Hk. destruct (Hm (S k) d' Hk) as [Hrc' Hr'].
      rewrite Nat.add_succ_r in Hrc', Hr'. now split.
Qed.

(** X9.  When every cycle restarts the service and measures a duration,
    [restart_by_count] has restarted the service and opened a journal
    once per duration, and has printed, for the cycles numbered from 1
    in order, the cleared line and the line [Restart #num: duration]. *)
Theorem restart_by_count_completes
  (count : Z) (st : State) (l : list timedelta) :
  Z.of_nat (List.length l) = count ->
  (forall k d, nth_error l k = Some d -> measured world fuel st k d) ->
  restart_by_count world fuel count st = (Done l, completed st l).
Proof.
  intros Hlen Hm. unfold restart_by_count.
  rewrite <- (app_nil_r (range 1 (count + 1))).
  rewrite (restart_each_measured l _ [] [] st); [|rewrite range_length; lia | assumption].
  cbn [restart_each ret app]. unfold completed. now rewrite Hlen.
Qed.

(** The cycle after [ds] restarts the service and [check_message] does
    not return there. *)
Lemma restart_by_count_stalls
  (count : Z) (st : State) (ds : list timedelta) (o : outcome timedelta) :
  Z.of_nat (List.length ds) < count ->
  (forall k d, nth_error ds k = Some d -> measured world fuel st k d) ->
  systemctl world (restart_calls st + List.length ds) = 0 ->
  check_message_loop fuel
    (read_log (journalctl world (journal_procs st + List.length ds))) 0 None = o ->
  (forall restart, o <> Done restart) ->
  restart_by_count world fuel count st =
  (match o with
   | Raised e => Raised e
   | _ => Pending
   end, stalled st ds).
Proof.
  intros Hlen Hm Hrc Ho Hnot. unfold restart_by_count.
  set (n := Z.of_nat (List.length ds)) in *.
  rewrite (range_app 1 (n + 1) (count + 1)) by lia.
  rewrite (range_cons (n + 1) (count + 1)) by lia.
  rewrite (restart_each_measured ds _ _ [] st); [|rewrite range_length; lia | assumption].
  rewrite restart_each_cons. cbn [restart_calls journal_procs printed].
  rewrite Hrc, Ho. cbn [Z.eqb]. unfold stalled. fold n.
  destruct o as [restart| |]; [now contradiction (Hnot restart) | reflexivity | reflexivity].
Qed.

(** X10.  An exception out of [check_message] is caught nowhere: [main] ends
    with it in the cycle where it is raised, after the lines of the
    cycles before it; neither that cycle's result nor the summary is
    printed and no further restart is asked for. *)
Theorem main_ends_with_check_message_exception
  (count : Z) (st : State) (ds : list timedelta) (e : exception) :
  Z.of_nat (List.length ds) < count ->
  (forall k d, nth_error ds k = Some d -> measured world fuel st k d) ->
  systemctl world (restart_calls st + List.length ds) = 0 ->
  check_message_loop fuel
    (read_log (journalctl world (journal_procs st + List.length ds))) 0 None = Raised e ->
  main world fuel count st = (Raised e, stalled st ds).
Proof.
  intros Hlen Hm Hrc He. unfold main, bind.
  rewrite (restart_by_count_stalls count st ds (Raised e)); auto.
  intros restart. discriminate.
Qed.

(** X11.  Restarts never overlap: while [check_message] is waiting in a
    cycle, [main] is waiting with it; the next restart has not been
    asked for and nothing of that cycle has been printed. *)
Theorem main_waits_for_check_message
  (count : Z) (st : State) (ds : list timedelta) :
  Z.of_nat (List.length ds) < count ->
  (forall k d, nth_error ds k = Some d -> measured world fuel st k d) ->
  systemctl world (restart_calls st + List.length ds) = 0 ->
  check_message_loop fuel
    (read_log (journalctl world (journal_procs st + List.length ds))) 0 None = Pending ->
  main world fuel count st = (Pending, stalled st ds).
Proof.
  intros Hlen Hm Hrc He. unfold main, bind.
  rewrite (restart_by_count_stalls count st ds Pending); auto.
  intros restart. discriminate.
Qed.

End Cycles.

(** ** Any run of [main] *)

Ltac split_all := repeat match goal with |- _ /\ _ => split end.

Section Runs.

Context {rt : Runtime}.
Variable world : World.
Variable fuel : nat.

(** What any run of the loop of [restart_by_count] has done. *)
Lemma restart_each_steps (nums : list Z) :
  forall acc st o st',
    restart_each world fuel nums acc st = (o, st') ->
    exists r j lines,
      restart_calls st' = (restart_calls st + r)%nat /\
      journal_procs st' = (journal_procs st + j)%nat /\
      printed st' = printed st ++ lines /\
      Forall (fun x => is_summary x = false) lines /\
      (j <= r <= S j)%nat /\ (r <= List.length nums)%nat /\
      (forall i, (i < j)%nat -> systemctl world (restart_calls st + i) = 0) /\
      (forall l, o = Done l ->
                 r = List.length nums /\ j = List.length nums /\
                 List.length l = (List.length acc + List.length nums)%nat).
Proof.
  induction nums as [|num nums IH]; intros acc st o st' H.
  - injection H as <- <-. exists 0%nat, 0%nat, [].
    rewrite !Nat.add_0_r, app_nil_r.
    split_all; try reflexivity; try lia; try apply Forall_nil.
    intros l Hl. injection Hl as <-. cbn [List.length]. lia.
  - rewrite restart_each_cons in H.
    destruct (systemctl world (restart_calls st) =? 0) eqn:Hz.
    + apply Z.eqb_eq in Hz.
      destruct (check_message_loop fuel _ 0 None) as [d| |].
      * destruct (IH _ _ _ _ H)
          as (r & j & lines & Hr & Hj & Hp & Hall & Hrj & Hlen & Hok & Hdone).
        cbn [cycled restart_calls journal_procs printed] in *.
        exists (S r), (S j),
          (Cleared (RestartLabel num) :: Finished (RestartLabel num) d :: lines).
        split_all; cbn [List.length]; try lia.
        -- rewrite Hp, <- !app_assoc. reflexivity.
        -- repeat constructor. assumption.
        -- intros [|i] Hi; [now rewrite Nat.add_0_r|].
           rewrite Nat.add_succ_r. apply Hok. lia.
        -- intros l Hl. destruct (Hdone l Hl) as (-> & -> & Hl').
           rewrite length_app in Hl'. cbn [List.length] in *. lia.
      * injection H as <- <-. cbn [restart_calls journal_procs printed].
        exists 1%nat, 1%nat, []. rewrite app_nil_r.
        split_all; cbn [List.length]; try reflexivity; try lia; try apply Forall_nil.
        -- intros i Hi. assert (i = 0%nat) as -> by lia. now rewrite Nat.add_0_r.
        -- discriminate.
      * injection H as <- <-. cbn [restart_calls journal_procs printed].
        exists 1%nat, 1%nat, []. rewrite app_nil_r.
        split_all; cbn [List.length]; try reflexivity; try lia; try apply Forall_nil.
        -- intros i Hi. assert (i = 0%nat) as -> by lia. now rewrite Nat.add_0_r.
        -- discriminate.
    + injection H as <- <-. cbn [refused restart_calls journal_procs printed].
      exists 1%nat, 0%nat, [ExitedWithCode SERVICE_NAME (systemctl world (restart_calls st))].
      rewrite Nat.add_0_r.
      split_all; cbn [List.length]; try reflexivity; try lia.
      * repeat constructor.
      * discriminate.
Qed.

Lemma print_results_cases (restarts : list timedelta) (st st' : State) (o : outcome unit) :
  print_results restarts st = (o, st') ->
  (o = Done tt /\ restarts <> [] /\
   exists total_time min_time max_time avg_time,
     printed st' = printed st ++
                   [Rule 40; Totals (List.length restarts) total_time;
                    MinMaxAvg min_time max_time avg_time]) \/
  (st' = st /\ exists e, o = Raised e).
Proof.
  unfold print_results, bind, lift, print.
  destruct restarts as [|x restarts].
  { intros H. injection H as <- <-. right. split; [reflexivity | now eexists]. }
  destruct (py_min (x :: restarts)) as [mn|e];
    [|intros H; injection H as <- <-; right; split; [reflexivity | now eexists]].
  destruct (py_max (x :: restarts)) as [mx|e];
    [|intros H; injection H as <- <-; right; split; [reflexivity | now eexists]].
  destruct (py_sum (x :: restarts) 0) as [total_time|e];
    [|intros H; injection H as <- <-; right; split; [reflexivity | now eexists]].
  destruct (timedelta_truediv _ _) as [avg|e];
    [|intros H; injection H as <- <-; right; split; [reflexivity | now eexists]].
  intros H. injection H as <- <-. left. split; [reflexivity | split; [discriminate|]].
  exists total_time, mn, mx, avg. cbn [printed]. now rewrite <- !app_assoc.
Qed.

(** X12.  The cycles run one at a time and in order.  In any run of [main],
    however it ends, the journals opened are as many as the restarts
    asked for or one fewer, each journal follows a restart that the
    supervisor accepted, and no more restarts are asked for than
    [count]; when [main] returns, exactly [count] restarts and journals
    were used, and [count] is at least one. *)
Theorem main_runs_cycles_in_sequence
  (count : Z) (st st' : State) (o : outcome unit) :
  main world fuel count st = (o, st') ->
  exists r j,
    restart_calls st' = (restart_calls st + r)%nat /\
    journal_procs st' = (journal_procs st + j)%nat /\
    (j <= r <= S j)%nat /\
    Z.of_nat r <= Z.max 0 count /\
    (forall i, (i < j)%nat -> systemctl world (restart_calls st + i) = 0) /\
    (o = Done tt -> r = j /\ Z.of_nat r = count /\ 1 <= count).
Proof.
  intros H. unfold main, bind in H.
  destruct (restart_by_count world fuel count st) as [o1 st1] eqn:E.
  unfold restart_by_count in E.
  destruct (restart_each_steps _ _ _ _ _ E)
    as (r & j & lines & Hr & Hj & _ & _ & Hrj & Hlen & Hok & Hdone).
  rewrite range_length in Hlen, Hdone.
  replace (count + 1 - 1) with count in Hlen, Hdone by lia.
  exists r, j.
  destruct o1 as [l| |].
  - destruct (print_results_calls _ _ _ _ H) as [-> ->].
    destruct (Hdone l eq_refl) as (-> & -> & Hl). cbn [List.length] in Hl.
    split_all; try assumption; try lia.
    intros ->. destruct (print_results_cases _ _ _ _ H) as [(_ & Hne & _) | (_ & e & He)];
      [|discriminate].
    assert (List.length l <> 0%nat) by (destruct l; [congruence | discriminate]).
    lia.
  - injection H as <- <-. split_all; try assumption; try lia. discriminate.
  - injection H as <- <-. split_all; try assumption; try lia. discriminate.
Qed.

(** X13.  The summary is printed by a run of [main] that returns, and by no
    other: it is then the last three lines, after the lines of the
    cycles, and its count is [count].  A run that ends with an
    exception or is still waiting has printed no line of it. *)
Theorem main_prints_summary_only_when_it_returns
  (count : Z) (st st' : State) (o : outcome unit) :
  main world fuel count st = (o, st') ->
  exists lines,
    printed st' = printed st ++ lines /\
    ((o = Done tt /\
      exists cycles total_time min_time max_time avg_time,
        lines = cycles ++ [Rule 40; Totals (Z.to_nat count) total_time;
                           MinMaxAvg min_time max_time avg_time] /\
        Forall (fun x => is_summary x = false) cycles) \/
     (o <> Done tt /\ Forall (fun x => is_summary x = false) lines)).
Proof.
  intros H. unfold main, bind in H.
  destruct (restart_by_count world fuel count st) as [o1 st1] eqn:E.
  unfold restart_by_count in E.
  destruct (restart_each_steps _ _ _ _ _ E)
    as (r & j & cycles & _ & _ & Hp & Hall & _ & _ & _ & Hdone).
  rewrite range_length in Hdone.
  replace (count + 1 - 1) with count in Hdone by lia.
  destruct o1 as [l| |].
  - destruct (Hdone l eq_refl) as (_ & _ & Hl). cbn [List.length] in Hl.
    destruct (print_results_cases _ _ _ _ H)
      as [(-> & _ & total_time & mn & mx & avg & Hp') | (-> & e & ->)].
    + exists (cycles ++ [Rule 40; Totals (Z.to_nat count) total_time; MinMaxAvg mn mx avg]).
      split; [rewrite Hp', Hp, Hl, <- app_assoc; reflexivity|].
      left. split; [reflexivity|]. now exists cycles, total_time, mn, mx, avg.
    + exists cycles. split; [assumption|]. right. split; [discriminate | assumption].
  - injection H as <- <-. exists cycles. split; [assumption|].
    right. split; [discriminate | assumption].
  - injection H as <- <-. exists cycles. split; [assumption|].
    right. split; [discriminate | assumption].
Qed.

End Runs.

(** ** More on the summary *)

Section MoreSummary.

Context {rt : Runtime}.

Lemma print_results_done (restarts : list timedelta) (st : State) :
  restarts <> [] ->
  forallb timedelta_in_range restarts = true ->
  forallb timedelta_in_range (partial_sums restarts 0) = true ->
  exists min_time max_time avg_time,
    print_results restarts st =
      (Done tt,
       {| restart_calls := restart_calls st;
          journal_procs := journal_procs st;
          printed := printed st ++
                     [Rule 40;
                      Totals (List.length restarts) (total restarts);
                      MinMaxAvg min_time max_time avg_time] |}) /\
    In min_time restarts /\ In max_time restarts /\
    (forall x, In x restarts -> min_time <= x <= max_time) /\
    min_time <= avg_time <= max_time.
Proof.
  intros Hne Hvalid Hsums.
  destruct (py_min_spec restarts Hne) as (mn & Emin & Hmin_in & Hmin).
  destruct (py_max_spec restarts Hne) as (mx & Emax & Hmax_in & Hmax).
  pose proof (py_sum_spec restarts 0 Hsums) as Esum. rewrite Z.add_0_l in Esum.
  set (r := Z.of_nat (List.length restarts)).
  assert (Hr : 0 < r) by (subst r; destruct restarts; [congruence | cbn [List.length]; lia]).
  assert (Hbetween : mn * r <= total restarts <= mx * r).
  { apply total_between. intros y Hy. split; [now apply Hmin | now apply Hmax]. }
  pose proof (divide_and_round_between _ _ _ _ Hr Hbetween) as Havg.
  rewrite forallb_forall in Hvalid.
  assert (Hrange : timedelta_in_range (divide_and_round (total restarts) r) = true).
  { apply (timedelta_in_range_between mn mx); auto. }
  exists mn, mx, (divide_and_round (total restarts) r).
  split; [|split; [assumption | split; [assumption | split; [|assumption]]]].
  - unfold print_results, bind, lift, print. rewrite Emin, Emax, Esum.
    unfold timedelta_truediv, new_timedelta. fold r.
    destruct (Z.eqb_spec r 0) as [|_]; [lia|]. rewrite Hrange.
    cbn [restart_calls journal_procs printed]. repeat rewrite <- app_assoc. reflexivity.
  - intros x Hx. split; [now apply Hmin | now apply Hmax].
Qed.

(** X14.  A run in which every cycle measures a duration: [main] returns
    with exit status 0 after [count] restarts, having printed the two
    lines of each cycle in order and then the summary of the durations
    measured. *)
Theorem main_completes
  (world : World) (fuel : nat) (count : Z) (st : State) (l : list timedelta) :
  1 <= count ->
  Z.of_nat (List.length l) = count ->
  (forall k d, nth_error l k = Some d -> measured world fuel st k d) ->
  forallb timedelta_in_range l = true ->
  forallb timedelta_in_range (partial_sums l 0) = true ->
  exists min_time max_time avg_time,
    main world fuel count st =
      (Done tt,
       {| restart_calls := restart_calls st + List.length l;
          journal_procs := journal_procs st + List.length l;
          printed := printed st ++ progress (range 1 (count + 1)) l ++
                     [Rule 40; Totals (List.length l) (total l);
                      MinMaxAvg min_time max_time avg_time] |}) /\
    exit_status (fst (main world fuel count st)) = Some 0 /\
    In min_time l /\ In max_time l /\ min_time <= avg_time <= max_time.
Proof.
  intros Hcount Hlen Hm Hvalid Hsums.
  assert (Hne : l <> []) by (intros ->; cbn [List.length] in Hlen; lia).
  assert (E : restart_by_count world fuel count st =
              (Done l, {| restart_calls := restart_calls st + List.length l;
                          journal_procs := journal_procs st + List.length l;
                          printed := printed st ++ progress (range 1 (count + 1)) l |})).
  { unfold restart_by_count.
    pose proof (restart_each_measured world fuel l (range 1 (count + 1)) [] [] st) as R.
    rewrite app_nil_r in R. rewrite R; [reflexivity | rewrite range_length; lia | assumption]. }
  destruct (print_results_done l
              {| restart_calls := restart_calls st + List.length l;
                 journal_procs := journal_procs st + List.length l;
                 printed := printed st ++ progress (range 1 (count + 1)) l |}
              Hne Hvalid Hsums)
    as (mn & mx & avg & Ep & Hmn & Hmx & _ & Havg).
  cbn [restart_calls journal_procs printed] in Ep. rewrite <- app_assoc in Ep.
  assert (Emain : main world fuel count st =
                  (Done tt,
                   {| restart_calls := restart_calls st + List.length l;
                      journal_procs := journal_procs st + List.length l;
                      printed := printed st ++ progress (range 1 (count + 1)) l ++
                                 [Rule 40; Totals (List.length l) (total l);
                                  MinMaxAvg mn mx avg] |})).
  { unfold main, bind. rewrite E. exact Ep. }
  exists mn, mx, avg. rewrite Emain. repeat split; assumption || apply Havg.
Qed.

Lemma total_permutation (l l' : list timedelta) :
  Permutation l l' -> total l = total l'.
Proof.
  intros P.
  induction P as [|x l l' P IH|x y l|l l' l'' P1 IH1 P2 IH2];
    unfold total in *; cbn [fold_right] in *; lia.
Qed.

Lemma py_min_permutation (l l' : list timedelta) :
  Permutation l l' -> py_min l = py_min l'.
Proof.
  intros P. destruct l as [|x l].
  { now rewrite (Permutation_nil P). }
  assert (Hne : x :: l <> []) by discriminate.
  assert (Hne' : l' <> []).
  { intros ->. apply Permutation_sym, Permutation_nil in P. discriminate. }
  destruct (py_min_spec _ Hne) as (m & -> & Hin & Hle).
  destruct (py_min_spec _ Hne') as (m' & -> & Hin' & Hle').
  f_equal. apply Z.le_antisymm.
  - apply Hle. apply (Permutation_in _ (Permutation_sym P)), Hin'.
  - apply Hle'. apply (Permutation_in _ P), Hin.
Qed.

Lemma py_max_permutation (l l' : list timedelta) :
  Permutation l l' -> py_max l = py_max l'.
Proof.
  intros P. destruct l as [|x l].
  { now rewrite (Permutation_nil P). }
  assert (Hne : x :: l <> []) by discriminate.
  assert (Hne' : l' <> []).
  { intros ->. apply Permutation_sym, Permutation_nil in P. discriminate. }
  destruct (py_max_spec _ Hne) as (m & -> & Hin & Hle).
  destruct (py_max_spec _ Hne') as (m' & -> & Hin' & Hle').
  f_equal. apply Z.le_antisymm.
  - apply Hle'. apply (Permutation_in _ P), Hin.
  - apply Hle. apply (Permutation_in _ (Permutation_sym P)), Hin'.
Qed.

(** X15.  The summary does not depend on the order of the durations, as long
    as the running sums stay within the range of [timedelta] in both
    orders: [print_results] behaves the same on a list and on any
    rearrangement of it. *)
Theorem print_results_ignores_order (l l' : list timedelta) (st : State) :
  Permutation l l' ->
  forallb timedelta_in_range (partial_sums l 0) = true ->
  forallb timedelta_in_range (partial_sums l' 0) = true ->
  print_results l st = print_results l' st.
Proof.
  intros P Hs Hs'. unfold print_results.
  rewrite (py_min_permutation l l' P), (py_max_permutation l l' P).
  rewrite (py_sum_spec l 0 Hs), (py_sum_spec l' 0 Hs').
  now rewrite (total_permutation l l' P), (Permutation_length P).
Qed.

Lemma total_repeat (d : timedelta) (n : nat) : total (repeat d n) = Z.of_nat n * d.
Proof.
  induction n as [|n IH]; [reflexivity|].
  cbn [repeat total fold_right]. fold (total (repeat d n)). rewrite IH. lia.
Qed.

(** X16.  When every cycle took the same time [d] (as when there is one
    cycle, the default), the summary shows [d] as minimum, maximum and
    average, and [n] times [d] as total: the average has no rounding
    error. *)
Theorem print_results_of_equal_durations (d : timedelta) (n : nat) (st : State) :
  (0 < n)%nat ->
  forallb timedelta_in_range (partial_sums (repeat d n) 0) = true ->
  print_results (repeat d n) st =
    (Done tt,
     {| restart_calls := restart_calls st;
        journal_procs := journal_procs st;
        printed := printed st ++
                   [Rule 40; Totals n (Z.of_nat n * d); MinMaxAvg d d d] |}).
Proof.
  intros Hn Hsums.
  assert (Hne : repeat d n <> []) by (destruct n; [lia | discriminate]).
  assert (Hd : timedelta_in_range d = true).
  { destruct n as [|n]; [lia|]. cbn [repeat partial_sums forallb] in Hsums.
    now apply andb_true_iff in Hsums as [Hd _]. }
  assert (Hvalid : forallb timedelta_in_range (repeat d n) = true).
  { apply forallb_forall. intros x Hx. now rewrite (repeat_spec _ _ _ Hx). }
  destruct (print_results_done (repeat d n) st Hne Hvalid Hsums)
    as (mn & mx & avg & E & Hmn & Hmx & _ & Havg).
  apply repeat_spec in Hmn, Hmx. subst mn mx.
  assert (avg = d) as -> by lia.
  now rewrite E, repeat_length, total_repeat.
Qed.

End MoreSummary.

(** ** The spinner *)

Section Spinner.

Lemma cycle_next_steps (rest : list N) :
  cycle_next steps rest <> None.
Proof. destruct rest; discriminate. Qed.

(** The frames from a pass that has [skipn i steps] left. *)
Lemma animate_frames (n : nat) (desc : label) (done_at : nat -> bool) :
  forall (i k : nat),
    (i <= 8)%nat ->
    (forall m, (m < n)%nat -> done_at (k + m)%nat = false) ->
    done_at (k + n)%nat = true ->
    forall extra,
      animate (S n + extra) desc steps (skipn i steps) done_at k =
      (map (fun m => Frame desc (nth ((i + m) mod 8) steps 0%N)) (seq 0 n), true).
Proof.
  induction n as [|n IH]; intros i k Hi Hrun Hdone extra.
  - rewrite Nat.add_0_r in Hdone. cbn [Nat.add animate].
    destruct (cycle_next steps (skipn i steps)) as [[c rest']|] eqn:E;
      [|now contradiction (cycle_next_steps (skipn i steps))].
    now rewrite Hdone.
  - change (S (S n) + extra)%nat with (S (S n + extra)). cbn [animate].
    pose proof (Hrun 0%nat ltac:(lia)) as H0. rewrite Nat.add_0_r in H0.
    assert (Hnext : exists i',
               cycle_next steps (skipn i steps) =
               Some (nth (i mod 8) steps 0%N, skipn i' steps) /\
               (i' <= 8)%nat /\ (i' mod 8 = S i mod 8)%nat).
    { destruct (Nat.eq_dec i 8) as [->|Hne].
      - exists 1%nat. repeat split. lia.
      - exists (S i). split; [|split; [lia | reflexivity]].
        do 8 (destruct i as [|i]; [reflexivity|]). lia. }
    destruct Hnext as (i' & -> & Hi' & Hmod). rewrite H0.
    rewrite (IH i' (S k)).
    + cbn [seq map]. f_equal. f_equal.
      * now rewrite Nat.add_0_r.
      * rewrite <- seq_shift, map_map. apply map_ext. intros m.
        do 2 f_equal.
        rewrite <- (Nat.Div0.add_mod_idemp_l i'), Hmod, Nat.Div0.add_mod_idemp_l.
        f_equal. lia.
    + assumption.
    + intros m Hm. rewrite <- (Hrun (S m)) by lia. f_equal. lia.
    + rewrite <- Hdone. f_equal. lia.
Qed.

Lemma animate_running (desc : label) (done_at : nat -> bool) (n : nat) :
  forall rest k,
    (forall m, (m < n)%nat -> done_at (k + m)%nat = false) ->
    exists frames,
      animate n desc steps rest done_at k = (frames, false) /\
      List.length frames = n.
Proof.
  induction n as [|n IH]; intros rest k Hrun.
  - now exists [].
  - cbn [animate].
    destruct (cycle_next steps rest) as [[c rest']|] eqn:E;
      [|now contradiction (cycle_next_steps rest)].
    pose proof (Hrun 0%nat ltac:(lia)) as H0. rewrite Nat.add_0_r in H0. rewrite H0.
    destruct (IH rest' (S k)) as (frames & -> & Hlen).
    + intros m Hm. rewrite <- (Hrun (S m)) by lia. f_equal. lia.
    + exists (Frame desc c :: frames). split; [reflexivity|].
      cbn [List.length]. now rewrite Hlen.
Qed.

(** X17.  The spinner prints one frame for each test of [self.done] that
    reads [False] and ends at the first test that reads [True]: the
    [m]-th frame shows the glyph [steps[m % 8]] after the description.
    A flag already set when the thread starts leaves it without a
    frame.  While no test reads [True] it goes on: after [n] passes it
    has printed [n] frames and has not ended. *)
Theorem spinner_prints_frames_until_done
  (self : ProgressBar) (done_at : nat -> bool) (n : nat) :
  (forall m, (m < n)%nat -> done_at m = false) ->
  (exists frames,
      _animate n self done_at = (frames, false) /\ List.length frames = n) /\
  (done_at n = true ->
   forall extra,
     _animate (S n + extra) self done_at =
     (map (fun m => Frame (desc self) (nth (m mod 8) steps 0%N)) (seq 0 n), true)).
Proof.
  intros Hrun. unfold _animate. split.
  - apply animate_running. exact Hrun.
  - intros Hdone extra.
    apply (animate_frames n (desc self) done_at 0 0); [lia | assumption | assumption].
Qed.

End Spinner.



(** * The properties on sample logs *)

Module Examples.

Import Reference.

(** The docstring's run: three restarts of 18.444228 s, 17.258119 s and
    16.693717 s, a total of 52.396064 s and an average of 17.465355 s. *)
Example docstring_run :
  main docstring_world 5 3 initial =
  (Done tt,
   {| restart_calls := 3; journal_procs := 3;
      printed := [Cleared (RestartLabel 1); Finished (RestartLabel 1) 18444228;
                  Cleared (RestartLabel 2); Finished (RestartLabel 2) 17258119;
                  Cleared (RestartLabel 3); Finished (RestartLabel 3) 16693717;
                  Rule 40; Totals 3 52396064;
                  MinMaxAvg 16693717 18444228 17465355] |}).
Proof. vm_compute. reflexivity. Qed.

Example markers_on_samples :
  re_match is_ascii_digit START_MESSAGE (lit "systemd[1]: Started Agoric Cosmos daemon.") = true /\
  re_match is_ascii_digit START_MESSAGE (lit "systemd[1]: Started Agoric Cosmos daemon") = false /\
  re_match is_ascii_digit END_MESSAGE (lit "block-manager: block 12 begin") = true /\
  re_match is_ascii_digit END_MESSAGE (lit "block-manager: block  begin") = false /\
  re_match is_ascii_digit END_MESSAGE (lit "block-manager: block 12 begins") = false.
Proof. vm_compute. repeat split. Qed.







Lemma check_message_needs_an_earlier_start_witness :
  exists i j,
    (i < j < 5)%nat /\ returns_at (writes [started; chatter; ready]) j 18444228 /\
    started_at (writes [started; chatter; ready]) i = true /\
    ready_at (writes [started; chatter; ready]) j = true.
Proof.
  apply (proj1 (check_message_needs_an_earlier_start
                  (steady [started; chatter; ready]) initial
                  (writes [started; chatter; ready]) eq_refl)
           5%nat 18444228).
  vm_compute. reflexivity.
Defined.

(** C2 fails on the code: a line that is no JSON, or an entry without
    MESSAGE, between the two markers is not skipped.  [check_message]
    ends with the exception instead of returning the 18.444228 s it
    returns without that line. *)
Lemma undecodable_line_ends_check_message :
  check_message (steady [started; not_json; ready]) 5 initial =
    (Raised JSONDecodeError, opened initial) /\
  check_message (steady [started; without_message; ready]) 5 initial =
    (Raised (KeyError "MESSAGE"), opened initial) /\
  check_message (steady [started; ready]) 5 initial =
    (Done 18444228, opened initial).
Proof. vm_compute. repeat split. Qed.

Lemma check_message_skips_non_text_only_witness :
  started_at (writes [started; null_message; ready]) 1 = false /\
  ready_at (writes [started; null_message; ready]) 1 = false /\
  forall n st,
    check_message_loop (S n) (read_log (writes [started; null_message; ready])) 1 st =
    check_message_loop n (read_log (writes [started; null_message; ready])) 2 st.
Proof.
  apply (proj1 (check_message_skips_non_text_only
                  (writes [started; null_message; ready]) 1%nat)
           (EPOCH + 1600000003000000) JNone).
  - vm_compute. reflexivity.
  - reflexivity.
Defined.

Lemma check_message_aborts_on_malformed_entry_witness :
  (forall start_timestamp,
      check_entry start_timestamp (JDict [(lit "MESSAGE", JNone)]) =
      Raise (KeyError "__REALTIME_TIMESTAMP")) /\
  forall fuel, (1 < fuel)%nat ->
    check_message (steady [started; without_timestamp; ready]) fuel initial =
    (Raised (KeyError "__REALTIME_TIMESTAMP"), opened initial).
Proof.
  apply (check_message_aborts_on_malformed_entry
           (steady [started; without_timestamp; ready]) initial
           (writes [started; without_timestamp; ready]) 1).
  - reflexivity.
  - split.
    + intros k Hk. by_cases_below k.
    + intros k Hk Hr. exfalso. revert Hr. by_cases_below k.
  - vm_compute. reflexivity.
  - apply no_timestamp. vm_compute. reflexivity.
Defined.

Lemma main_exits_on_refused_restart_witness :
  exists progress,
    [Cleared (RestartLabel 1); Finished (RestartLabel 1) 18444228;
     ExitedWithCode SERVICE_NAME 3] =
      printed initial ++ progress ++
      [ExitedWithCode SERVICE_NAME (systemctl second_refused 1)] /\
    Forall (fun x => is_summary x = false) progress.
Proof.
  apply (main_exits_on_refused_restart second_refused 5 3 initial
           {| restart_calls := 2; journal_procs := 1;
              printed := [Cleared (RestartLabel 1); Finished (RestartLabel 1) 18444228;
                          ExitedWithCode SERVICE_NAME 3] |}
           (Raised (SystemExit 1)) 1).
  - vm_compute. reflexivity.
  - cbn [restart_calls initial]. lia.
  - vm_compute. congruence.
Defined.

Lemma restart_by_count_measures_each_cycle_witness :
  exists st',
    restart_by_count (steady [started; chatter; ready]) 5 3 initial =
    (Done [18444228; 18444228; 18444228], st').
Proof.
  apply (proj2 (restart_by_count_measures_each_cycle
                  (steady [started; chatter; ready]) 5 3 initial
                  [18444228; 18444228; 18444228] ltac:(lia))).
  split; [reflexivity|].
  intros k d Hk.
  destruct k as [|[|[|k]]]; cbn [nth_error] in Hk;
    try (injection Hk as <-; split; vm_compute; reflexivity).
  destruct k; discriminate.
Defined.

Lemma print_results_statistics_witness :
  (forallb timedelta_in_range (partial_sums docstring_restarts 0) = true /\
   exists min_time max_time avg_time,
     print_results docstring_restarts initial =
       (Done tt,
        {| restart_calls := restart_calls initial;
           journal_procs := journal_procs initial;
           printed := printed initial ++
                      [Rule 40;
                       Totals (List.length docstring_restarts) (total docstring_restarts);
                       MinMaxAvg min_time max_time avg_time] |}) /\
     In min_time docstring_restarts /\ In max_time docstring_restarts /\
     (forall x, In x docstring_restarts -> min_time <= x <= max_time) /\
     2 * Z.abs (avg_time * Z.of_nat (List.length docstring_restarts)
                - total docstring_restarts)
       <= Z.of_nat (List.length docstring_restarts) /\
     min_time <= avg_time <= max_time) \/
  (forallb timedelta_in_range (partial_sums docstring_restarts 0) = false /\
   print_results docstring_restarts initial = (Raised OverflowError, initial)).
Proof.
  apply (print_results_statistics docstring_restarts initial).
  - discriminate.
  - vm_compute. reflexivity.
Defined.

Lemma main_crashes_without_restarts_witness :
  restart_by_count (steady [started; ready]) 5 0 initial = (Done [], initial) /\
  print_results [] initial = (Raised ValueError, initial) /\
  main (steady [started; ready]) 5 0 initial = (Raised ValueError, initial) /\
  exit_status (fst (main (steady [started; ready]) 5 0 initial)) = Some 1.
Proof.
  apply (proj1 (main_crashes_without_restarts (steady [started; ready]) 5 0 initial)).
  lia.
Defined.

End Examples.

(** * The further properties on sample runs *)

Module MoreExamples.

Import Reference.
Import Scenarios.


Lemma check_message_ignores_later_entries_witness :
  returns_at (journalctl (steady [started; chatter; ready; ready_later])
                (journal_procs initial)) 2 18444228 /\
  forall fuel, (2 < fuel)%nat ->
    check_message (steady [started; chatter; ready; ready_later]) fuel initial =
    (Done 18444228, opened initial).
Proof.
  apply (check_message_ignores_later_entries
           (steady [started; chatter; ready])
           (steady [started; chatter; ready; ready_later]) initial initial 2 18444228).
  - intros k Hk. by_cases_below k.
  - split; vm_compute; reflexivity.
Defined.

Lemma check_message_raises_on_undecodable_line_witness :
  check_message (steady journal_ended) 5 initial =
  (Raised JSONDecodeError, opened initial).
Proof.
  apply (check_message_raises_on_undecodable_line
           (steady journal_ended) initial (writes journal_ended) 1 []).
  - reflexivity.
  - split.
    + intros k Hk. by_cases_below k.
    + intros k Hk Hr. exfalso. revert Hr. by_cases_below k.
  - reflexivity.
  - reflexivity.
  - lia.
Defined.

Lemma check_message_waits_on_silent_journal_witness :
  check_message (steady [started; chatter]) 7 initial = (Pending, opened initial).
Proof.
  apply (check_message_waits_on_silent_journal
           (steady [started; chatter]) initial (writes [started; chatter]) 2).
  - reflexivity.
  - split.
    + intros k Hk. by_cases_below k.
    + intros k Hk Hr. exfalso. revert Hr. by_cases_below k.
  - reflexivity.
Defined.

Lemma three_cycles_measured (k : nat) (d : timedelta) :
  nth_error [18444228; 18444228; 18444228] k = Some d ->
  measured (steady [started; chatter; ready]) 5 initial k d.
Proof.
  intros Hk. destruct k as [|[|[|k]]]; cbn [nth_error] in Hk;
    try (injection Hk as <-; split; vm_compute; reflexivity).
  destruct k; discriminate.
Qed.

Lemma restart_by_count_completes_witness :
  restart_by_count (steady [started; chatter; ready]) 5 3 initial =
  (Done [18444228; 18444228; 18444228],
   completed initial [18444228; 18444228; 18444228]).
Proof.
  apply (restart_by_count_completes (steady [started; chatter; ready]) 5 3 initial
           [18444228; 18444228; 18444228]).
  - reflexivity.
  - exact three_cycles_measured.
Defined.

Lemma first_cycle_measured (world : World) (k : nat) (d : timedelta) :
  journalctl world 0 = writes [started; ready] ->
  systemctl world 0 = 0 ->
  nth_error [18444228] k = Some d ->
  measured world 5 initial k d.
Proof.
  intros Hj Hs Hk. destruct k as [|k]; cbn [nth_error] in Hk.
  - injection Hk as <-. split; cbn [initial restart_calls journal_procs Nat.add].
    + exact Hs.
    + rewrite Hj. vm_compute. reflexivity.
  - destruct k; discriminate.
Qed.

Lemma main_ends_with_check_message_exception_witness :
  main second_journal_broken 5 3 initial =
  (Raised JSONDecodeError, stalled initial [18444228]).
Proof.
  apply (main_ends_with_check_message_exception second_journal_broken 5 3 initial
           [18444228] JSONDecodeError).
  - cbn [List.length]. lia.
  - intros k d. now apply first_cycle_measured.
  - reflexivity.
  - vm_compute. reflexivity.
Defined.

Lemma main_waits_for_check_message_witness :
  main second_journal_silent 5 3 initial = (Pending, stalled initial [18444228]).
Proof.
  apply (main_waits_for_check_message second_journal_silent 5 3 initial [18444228]).
  - cbn [List.length]. lia.
  - intros k d. now apply first_cycle_measured.
  - reflexivity.
  - vm_compute. reflexivity.
Defined.

Lemma main_runs_cycles_in_sequence_witness :
  exists r j,
    2%nat = (restart_calls initial + r)%nat /\
    1%nat = (journal_procs initial + j)%nat /\
    (j <= r <= S j)%nat /\
    Z.of_nat r <= Z.max 0 3 /\
    (forall i, (i < j)%nat -> systemctl second_refused (restart_calls initial + i) = 0) /\
    (Raised (SystemExit 1) = Done tt -> r = j /\ Z.of_nat r = 3 /\ 1 <= 3).
Proof.
  apply (main_runs_cycles_in_sequence second_refused 5 3 initial
           {| restart_calls := 2; journal_procs := 1;
              printed := [Cleared (RestartLabel 1); Finished (RestartLabel 1) 18444228;
                          ExitedWithCode SERVICE_NAME 3] |}
           (Raised (SystemExit 1))).
  vm_compute. reflexivity.
Defined.

Lemma main_prints_summary_only_when_it_returns_witness :
  exists lines,
    [Cleared (RestartLabel 1); Finished (RestartLabel 1) 18444228;
     Cleared (RestartLabel 2); Finished (RestartLabel 2) 17258119;
     Cleared (RestartLabel 3); Finished (RestartLabel 3) 16693717;
     Rule 40; Totals 3 52396064; MinMaxAvg 16693717 18444228 17465355] =
    printed initial ++ lines /\
    ((Done tt = Done tt /\
      exists cycles total_time min_time max_time avg_time,
        lines = cycles ++ [Rule 40; Totals (Z.to_nat 3) total_time;
                           MinMaxAvg min_time max_time avg_time] /\
        Forall (fun x => is_summary x = false) cycles) \/
     (Done tt <> Done tt /\ Forall (fun x => is_summary x = false) lines)).
Proof.
  apply (main_prints_summary_only_when_it_returns docstring_world 5 3 initial
           {| restart_calls := 3; journal_procs := 3;
              printed := [Cleared (RestartLabel 1); Finished (RestartLabel 1) 18444228;
                          Cleared (RestartLabel 2); Finished (RestartLabel 2) 17258119;
                          Cleared (RestartLabel 3); Finished (RestartLabel 3) 16693717;
                          Rule 40; Totals 3 52396064;
                          MinMaxAvg 16693717 18444228 17465355] |}
           (Done tt)).
  vm_compute. reflexivity.
Defined.

Lemma docstring_cycles_measured (k : nat) (d : timedelta) :
  nth_error docstring_restarts k = Some d ->
  measured docstring_world 5 initial k d.
Proof.
  intros Hk. destruct k as [|[|[|k]]]; cbn [nth_error docstring_restarts] in Hk;
    try (injection Hk as <-; split; vm_compute; reflexivity).
  destruct k; discriminate.
Qed.

Lemma main_completes_witness :
  exists min_time max_time avg_time,
    main docstring_world 5 3 initial =
      (Done tt,
       {| restart_calls := restart_calls initial + List.length docstring_restarts;
          journal_procs := journal_procs initial + List.length docstring_restarts;
          printed := printed initial ++ progress (range 1 (3 + 1)) docstring_restarts ++
                     [Rule 40;
                      Totals (List.length docstring_restarts) (total docstring_restarts);
                      MinMaxAvg min_time max_time avg_time] |}) /\
    exit_status (fst (main docstring_world 5 3 initial)) = Some 0 /\
    In min_time docstring_restarts /\ In max_time docstring_restarts /\
    min_time <= avg_time <= max_time.
Proof.
  apply (main_completes docstring_world 5 3 initial docstring_restarts).
  - lia.
  - reflexivity.
  - exact docstring_cycles_measured.
  - vm_compute. reflexivity.
  - vm_compute. reflexivity.
Defined.

Lemma print_results_ignores_order_witness :
  print_results docstring_restarts initial = print_results (rev docstring_restarts) initial.
Proof.
  apply (print_results_ignores_order docstring_restarts (rev docstring_restarts) initial).
  - apply Permutation_rev.
  - vm_compute. reflexivity.
  - vm_compute. reflexivity.
Defined.

Lemma print_results_of_equal_durations_witness :
  print_results (repeat 18444228 1) initial =
    (Done tt,
     {| restart_calls := restart_calls initial;
        journal_procs := journal_procs initial;
        printed := printed initial ++
                   [Rule 40; Totals 1 (Z.of_nat 1 * 18444228);
                    MinMaxAvg 18444228 18444228 18444228] |}).
Proof.
  apply (print_results_of_equal_durations 18444228 1 initial).
  - lia.
  - vm_compute. reflexivity.
Defined.

Lemma spinner_prints_frames_until_done_witness :
  (exists frames,
      _animate 10 {| desc := RestartLabel 1 |} (set_before 10) = (frames, false) /\
      List.length frames = 10%nat) /\
  (set_before 10 10 = true ->
   forall extra,
     _animate (S 10 + extra) {| desc := RestartLabel 1 |} (set_before 10) =
     (map (fun m => Frame (desc {| desc := RestartLabel 1 |}) (nth (m mod 8) steps 0%N))
        (seq 0 10), true)).
Proof.
  apply (spinner_prints_frames_until_done {| desc := RestartLabel 1 |} (set_before 10) 10).
  intros m Hm. unfold set_before. apply Nat.leb_gt. exact Hm.
Defined.

End MoreExamples.
